(** * social-signals-agent: entrypoint registry and upstream adapters

    A shallow embedding of the agent's TypeScript module: the helper
    [fetchJSON], the four data-source functions ([getXTrends], [getHNTop],
    [getNews], [searchHN]) and the six [addEntrypoint] registrations, followed
    by the properties of the specification that concern them.

    Modelling conventions.
    - JavaScript values coming out of [response.json()] are terms of [value];
      [VUndefined] is what a property read yields when the property is
      absent. Numbers are the integers (JSON counts, limits and scores).
    - Strings are [string], holding the UTF-8 form of the JavaScript string,
      one byte per character of the Rocq string; [JS.string_length] counts
      the UTF-16 code units, as [.length] does. A string with a lone
      surrogate has no UTF-8 form and is not represented.
    - An [async] function is a computation in the monad [M]: it reads the
      world (what each upstream replies, what the clock shows), appends the
      requests it issues to a trace, and either returns or rejects. *)

From Stdlib Require Import ZArith List String Ascii Bool Lia DecimalString.
Import ListNotations.
Local Open Scope string_scope.
Local Open Scope Z_scope.

(** ** JavaScript values *)

#[warnings="-register-all"] Inductive value : Type :=
| VUndefined
| VNull
| VBool (b : bool)
| VNum (n : Z)
| VStr (s : string)
| VArr (elems : list value)
| VObj (props : list (string * value)).

(** The rejections a promise of this module can carry. *)
Inductive error : Type :=
| NetworkError                                (* [fetch] itself rejects *)
| ApiError (status : Z)                       (* thrown by [fetchJSON] *)
| SyntaxError                                 (* [response.json()] on a body that is not JSON *)
| TypeError                                   (* property read on null/undefined, call of a non-function *)
| ValidationError (field rule : string)       (* input schema violation *)
| NotFoundError.                              (* unknown entrypoint key *)

Inductive result (A : Type) : Type :=
| Ok (a : A)
| Err (e : error).
Arguments Ok {A} a.
Arguments Err {A} e.

Definition rbind {A B} (r : result A) (k : A -> result B) : result B :=
  match r with
  | Ok a => k a
  | Err e => Err e
  end.

Definition is_ok {A} (r : result A) : bool :=
  match r with Ok _ => true | Err _ => false end.

Module JS.

(** ToBoolean. *)
Definition truthy (v : value) : bool :=
  match v with
  | VUndefined | VNull => false
  | VBool b => b
  | VNum n => negb (n =? 0)
  | VStr s => negb (s =? "")%string
  | VArr _ | VObj _ => true
  end.

(** [a || b]. *)
Definition or_else (a b : value) : value :=
  if truthy a then a else b.

Definition is_nullish (v : value) : bool :=
  match v with
  | VUndefined | VNull => true
  | _ => false
  end.

Fixpoint assoc (k : string) (props : list (string * value)) : value :=
  match props with
  | [] => VUndefined
  | (k', v) :: rest => if (k =? k')%string then v else assoc k rest
  end.

(** [o.k]. Reading a property of null or undefined throws; an object
    yields its own property or undefined; the other values (numbers,
    strings, booleans, arrays) have none of the property names this module
    reads, so they yield undefined. *)
Definition get (o : value) (k : string) : result value :=
  match o with
  | VUndefined | VNull => Err TypeError
  | VObj props => Ok (assoc k props)
  | _ => Ok VUndefined
  end.

(** [o?.k]. *)
Definition get_opt (o : value) (k : string) : value :=
  match o with
  | VObj props => assoc k props
  | _ => VUndefined
  end.

(** The decimal text of an integer. This is how a number is printed
    whenever its magnitude is below 2^53, where every integer is held and
    printed exactly; the limits of all the schemas lie in that range. *)
Definition string_of_Z (n : Z) : string :=
  NilZero.string_of_int (Z.to_int n).

(** Whether an object has an own property of that name. *)
Fixpoint has_own (k : string) (props : list (string * value)) : bool :=
  match props with
  | [] => false
  | (k', _) :: rest => (k =? k')%string || has_own k rest
  end.

(** ToString, as a template literal applies it. An array joins the texts
    of its elements, null and undefined counting as empty. An object parsed
    from JSON prints through the inherited [toString]; when it has an own
    property of that name, which is never callable, the conversion finds no
    primitive (the inherited [valueOf] returns the object itself) and throws
    a [TypeError]. *)
Fixpoint to_string (v : value) : result string :=
  match v with
  | VUndefined => Ok "undefined"
  | VNull => Ok "null"
  | VBool true => Ok "true"
  | VBool false => Ok "false"
  | VNum n => Ok (string_of_Z n)
  | VStr s => Ok s
  | VArr elems =>
      (fix join (l : list value) : result string :=
         match l with
         | [] => Ok ""
         | x :: rest =>
             rbind (if is_nullish x then Ok "" else to_string x) (fun sx =>
             match rest with
             | [] => Ok sx
             | _ => rbind (join rest) (fun srest => Ok (sx ++ "," ++ srest))
             end)
         end) elems
  | VObj props =>
      if has_own "toString" props then Err TypeError else Ok "[object Object]"
  end.

(** The UTF-16 code units a character of the UTF-8 form stands for: one for
    the first byte of a character of one, two or three bytes, two for the
    first byte of a character of four bytes (a surrogate pair), none for a
    continuation byte. *)
Definition utf16_units (c : ascii) : nat :=
  let n := nat_of_ascii c in
  if (n <? 128)%nat then 1%nat
  else if (n <? 192)%nat then 0%nat
  else if (n <? 240)%nat then 1%nat
  else 2%nat.

(** [s.length] *)
Fixpoint string_length (s : string) : nat :=
  match s with
  | EmptyString => 0%nat
  | String c rest => (utf16_units c + string_length rest)%nat
  end.

(** [arr.slice(0, end)] on an array of length [len]: a negative [end]
    counts from the back. *)
Definition slice0 {A} (l : list A) (e : Z) : list A :=
  let len := Z.of_nat (List.length l) in
  let final := if e <? 0 then Z.max (len + e) 0 else Z.min e len in
  firstn (Z.to_nat final) l.

(** [arr.map(f)] where [f] may throw: the first throw aborts the map. *)
Fixpoint map_throwing {A} (f : value -> result A) (l : list value) : result (list A) :=
  match l with
  | [] => Ok []
  | x :: rest =>
      rbind (f x) (fun y =>
      rbind (map_throwing f rest) (fun ys => Ok (y :: ys)))
  end.

(** [validCategories.includes(c)]. *)
Definition includes (l : list string) (c : string) : bool :=
  existsb (String.eqb c) l.

Definition hex_digit (n : nat) : ascii :=
  match n with
  | 0 => "0" | 1 => "1" | 2 => "2" | 3 => "3" | 4 => "4" | 5 => "5"
  | 6 => "6" | 7 => "7" | 8 => "8" | 9 => "9" | 10 => "A" | 11 => "B"
  | 12 => "C" | 13 => "D" | 14 => "E" | _ => "F"
  end%char%nat.

Definition uri_unreserved (c : ascii) : bool :=
  let n := nat_of_ascii c in
  (((65 <=? n) && (n <=? 90)) || ((97 <=? n) && (n <=? 122))
   || ((48 <=? n) && (n <=? 57))
   || existsb (Ascii.eqb c) ["-"; "_"; "."; "!"; "~"; "*"; "'"; "("; ")"]%char)%nat.

(** [encodeURIComponent]: every byte outside the unreserved set becomes
    [%XX]. *)
Fixpoint encodeURIComponent (s : string) : string :=
  match s with
  | EmptyString => EmptyString
  | String c rest =>
      if uri_unreserved c then String c (encodeURIComponent rest)
      else
        let n := nat_of_ascii c in
        String "%" (String (hex_digit (n / 16)) (String (hex_digit (n mod 16))
                                                   (encodeURIComponent rest)))
  end%nat.

End JS.

(** ** The world and the monad of asynchronous computations *)

(** What the [Response] of a completed [fetch] exposes to this module. *)
Record Response : Type := {
  status : Z;
  body : option value   (* [None]: the body is not JSON *)
}.

(** [response.ok]. *)
Definition ok (r : Response) : bool :=
  (200 <=? status r) && (status r <=? 299).

Inductive reply : Type :=
| Unreachable                 (* the request fails at the network level *)
| Answered (r : Response).

Inductive event : Type :=
| EFetch (url : string)                 (* a request issued through [fetch] *)
| EInvoke (key : string)                (* the runtime started a handler *)
| EBill (key : string) (amount : Z).    (* the runtime reported a price *)

(** The upstream may answer the same URL differently each time: its reply
    depends on how many events precede the request. *)
Record World : Type := {
  upstream : nat -> string -> reply;
  clock : string                        (* [new Date().toISOString()] *)
}.

Definition M (A : Type) : Type := World -> list event -> result A * list event.

Definition ret {A} (a : A) : M A := fun _ tr => (Ok a, tr).

Definition throw {A} (e : error) : M A := fun _ tr => (Err e, tr).

Definition bind {A B} (m : M A) (k : A -> M B) : M B :=
  fun w tr =>
    match m w tr with
    | (Ok a, tr') => k a w tr'
    | (Err e, tr') => (Err e, tr')
    end.

Definition lift {A} (r : result A) : M A := fun _ tr => (r, tr).

Declare Scope async_scope.
Delimit Scope async_scope with async.
Notation "x <- m ;; k" := (bind m (fun x => k))
  (at level 100, m at next level, right associativity) : async_scope.
Notation "' pat <- m ;; k" := (bind m (fun x => match x with pat => k end))
  (at level 100, pat pattern, m at next level, right associativity) : async_scope.
Local Open Scope async_scope.

(** [await fetch(url)]. *)
Definition fetch (url : string) : M Response :=
  fun w tr =>
    match upstream w (List.length tr) url with
    | Unreachable => (Err NetworkError, (tr ++ [EFetch url])%list)
    | Answered r => (Ok r, (tr ++ [EFetch url])%list)
    end.

(** [response.json()]. *)
Definition json (r : Response) : M value :=
  match body r with
  | Some v => ret v
  | None => throw SyntaxError
  end.

(** [new Date().toISOString()]. *)
Definition now_iso : M value := fun w tr => (Ok (VStr (clock w)), tr).

(** [Promise.all([a, b])]: both computations are started, in order, whatever
    becomes of the other, and each issues its request when started; the join
    rejects when one of them does. Which rejection the join carries when
    several reject is a matter of timing; the leftmost stands for it here. *)
Definition promise_all2 {A B} (a : M A) (b : M B) : M (A * B) :=
  fun w tr =>
    let (ra, tr1) := a w tr in
    let (rb, tr2) := b w tr1 in
    (match ra, rb with
     | Ok x, Ok y => Ok (x, y)
     | Err e, _ => Err e
     | Ok _, Err e => Err e
     end, tr2).

(** [Promise.all(xs.map(f))]. *)
Fixpoint promise_all {A} (ms : list (M A)) : M (list A) :=
  match ms with
  | [] => ret []
  | m :: rest =>
      fun w tr =>
        let (r, tr1) := m w tr in
        let (rs, tr2) := promise_all rest w tr1 in
        (match r, rs with
         | Ok x, Ok xs => Ok (x :: xs)
         | Err e, _ => Err e
         | Ok _, Err e => Err e
         end, tr2)
  end.

Declare Scope result_scope.
Delimit Scope result_scope with res.
Notation "x <- r ;; k" := (rbind r (fun x => k))
  (at level 100, r at next level, right associativity) : result_scope.

(** A parameter with a default value: [undefined] selects the default. *)
Definition default {A} (d : A) (arg : option A) : A :=
  match arg with
  | Some a => a
  | None => d
  end.

(** ** Signal records *)

Module HNStory.
Record t : Type := {
  source : string;
  title : value;
  url : value;
  score : value;
  comments : value;
  author : value;
  createdAt : value
}.
End HNStory.

Module NewsArticle.
Record t : Type := {
  source : string;
  title : value;
  description : value;
  url : value;
  source_name : value;
  publishedAt : value;
  imageUrl : value
}.
End NewsArticle.

Module SearchResult.
Record t : Type := {
  source : string;
  title : value;
  url : value;
  score : value;
  comments : value;
  relevanceScore : value
}.
End SearchResult.

(** ** Helper: fetch JSON with error handling *)

Definition fetchJSON (url : string) : M value :=
  response <- fetch url ;;
  if negb (ok response) then throw (ApiError (status response))
  else json response.

(** ** Data source functions *)

Definition trends_url : string := "https://trends.langoustine69.dev/x".

Definition trends_fallback : value :=
  VArr [ VObj [("source", VStr "x"); ("topic", VStr "AI Agents"); ("category", VStr "Technology")];
         VObj [("source", VStr "x"); ("topic", VStr "x402"); ("category", VStr "Crypto")] ].

(** How control leaves the [try] block of an async function. What the block
    awaited has settled inside it; a promise given to [return] without
    [await] settles only after the block is left, out of reach of its
    [catch]. *)
Inductive completion (A : Type) : Type :=
| Return (p : M A)
| FallThrough.
Arguments Return {A} p.
Arguments FallThrough {A}.

Definition try_catch {A} (block handler : M (completion A)) : M (completion A) :=
  fun w tr =>
    match block w tr with
    | (Ok c, tr') => (Ok c, tr')
    | (Err _, tr') => handler w tr'
    end.

Definition getXTrends : M value :=
  c <- try_catch
         (response <- fetch trends_url ;;
          if ok response then ret (Return (json response)) else ret FallThrough)
         (ret FallThrough) ;;
  match c with
  | Return p => p
  | FallThrough => ret trends_fallback
  end.

Definition hn_item_prefix : string := "https://news.ycombinator.com/item?id=".

(** [item.url || `https://news.ycombinator.com/item?id=${item.objectID}`] *)
Definition hn_url (item : value) : result value :=
  (u <- JS.get item "url" ;;
   if JS.truthy u then Ok u
   else
     id <- JS.get item "objectID" ;;
     text <- JS.to_string id ;;
     Ok (VStr (hn_item_prefix ++ text)))%res.

Definition hn_story (item : value) : result HNStory.t :=
  (title <- JS.get item "title" ;;
   url <- hn_url item ;;
   points <- JS.get item "points" ;;
   num_comments <- JS.get item "num_comments" ;;
   author <- JS.get item "author" ;;
   created_at <- JS.get item "created_at" ;;
   Ok {| HNStory.source := "hackernews";
         HNStory.title := title;
         HNStory.url := url;
         HNStory.score := points;
         HNStory.comments := num_comments;
         HNStory.author := author;
         HNStory.createdAt := created_at |})%res.

(** [hits.map(f)]: anything but an array has no callable [map]. *)
Definition array_map {A} (f : value -> result A) (arr : value) : result (list A) :=
  match arr with
  | VArr elems => JS.map_throwing f elems
  | _ => Err TypeError
  end.

Definition hn_top_url (limit : Z) : string :=
  "https://hn.algolia.com/api/v1/search?tags=front_page&hitsPerPage=" ++ JS.string_of_Z limit.

Definition getHNTop (limit : option Z) : M (list HNStory.t) :=
  let limit := default 10 limit in
  data <- fetchJSON (hn_top_url limit) ;;
  lift (hits <- JS.get data "hits" ;; array_map hn_story hits)%res.

Definition validCategories : list string :=
  ["business"; "entertainment"; "general"; "health"; "science"; "sports"; "technology"].

Definition news_url (cat : string) : string :=
  "https://saurav.tech/NewsAPI/top-headlines/category/" ++ cat ++ "/us.json".

Definition news_article (article : value) : result NewsArticle.t :=
  (title <- JS.get article "title" ;;
   description <- JS.get article "description" ;;
   url <- JS.get article "url" ;;
   src <- JS.get article "source" ;;
   publishedAt <- JS.get article "publishedAt" ;;
   urlToImage <- JS.get article "urlToImage" ;;
   Ok {| NewsArticle.source := "news";
         NewsArticle.title := title;
         NewsArticle.description := description;
         NewsArticle.url := url;
         NewsArticle.source_name := JS.get_opt src "name";
         NewsArticle.publishedAt := publishedAt;
         NewsArticle.imageUrl := urlToImage |})%res.

(** [articles.slice(0, limit).map(f)]: of the values JSON can hold only an
    array has a [slice] whose result has a [map]. *)
Definition array_slice_map {A} (f : value -> result A) (arr : value) (limit : Z)
  : result (list A) :=
  match arr with
  | VArr elems => JS.map_throwing f (JS.slice0 elems limit)
  | _ => Err TypeError
  end.

Definition getNews (category : option string) (limit : option Z) : M (list NewsArticle.t) :=
  let category := default "technology" category in
  let limit := default 10 limit in
  let cat := if JS.includes validCategories category then category else "technology" in
  data <- fetchJSON (news_url cat) ;;
  lift (articles <- JS.get data "articles" ;; array_slice_map news_article articles limit)%res.

Definition hn_search_url (query : string) (limit : Z) : string :=
  "https://hn.algolia.com/api/v1/search?query=" ++ JS.encodeURIComponent query
    ++ "&hitsPerPage=" ++ JS.string_of_Z limit.

Definition search_result (item : value) : result SearchResult.t :=
  (title <- JS.get item "title" ;;
   url <- hn_url item ;;
   points <- JS.get item "points" ;;
   num_comments <- JS.get item "num_comments" ;;
   highlight <- JS.get item "_highlightResult" ;;
   Ok {| SearchResult.source := "hackernews";
         SearchResult.title := title;
         SearchResult.url := url;
         SearchResult.score := points;
         SearchResult.comments := num_comments;
         SearchResult.relevanceScore :=
           JS.get_opt (JS.get_opt highlight "title") "matchLevel" |})%res.

Definition searchHN (query : string) (limit : option Z) : M (list SearchResult.t) :=
  let limit := default 10 limit in
  data <- fetchJSON (hn_search_url query limit) ;;
  lift (hits <- JS.get data "hits" ;; array_map search_result hits)%res.

(** ** Input schemas

    The schema combinators of the validation library, as far as the
    registrations use them. A schema is applied to the value found under a
    field name; it yields the parsed value or the first issue found. *)

Module Zod.

Definition schema (A : Type) : Type := string -> value -> result A.

Definition issue {A} (field rule : string) : result A :=
  Err (ValidationError field rule).

(** [z.number()] *)
Definition number : schema Z :=
  fun f v => match v with VNum n => Ok n | _ => issue f "invalid_type" end.

(** [z.number().min(lo)] and [.max(hi)] *)
Definition number_min (s : schema Z) (lo : Z) : schema Z :=
  fun f v => (n <- s f v ;; if n <? lo then issue f "too_small" else Ok n)%res.

Definition number_max (s : schema Z) (hi : Z) : schema Z :=
  fun f v => (n <- s f v ;; if hi <? n then issue f "too_big" else Ok n)%res.

(** [z.string()], [.min(lo)], [.max(hi)] on the length *)
Definition string_ : schema string :=
  fun f v => match v with VStr s => Ok s | _ => issue f "invalid_type" end.

Definition string_min (s : schema string) (lo : nat) : schema string :=
  fun f v =>
    (x <- s f v ;; if (JS.string_length x <? lo)%nat then issue f "too_small" else Ok x)%res.

Definition string_max (s : schema string) (hi : nat) : schema string :=
  fun f v =>
    (x <- s f v ;; if (hi <? JS.string_length x)%nat then issue f "too_big" else Ok x)%res.

(** [z.enum(values)] *)
Definition enum (values : list string) : schema string :=
  fun f v =>
    match v with
    | VStr s => if JS.includes values s then Ok s else issue f "invalid_enum_value"
    | _ => issue f "invalid_type"
    end.

Fixpoint elements {A} (elem : schema A) (f : string) (l : list value) : result (list A) :=
  match l with
  | [] => Ok []
  | x :: rest => (y <- elem f x ;; ys <- elements elem f rest ;; Ok (y :: ys))%res
  end.

(** [z.array(elem)], [.min(lo)], [.max(hi)] on the length; the length
    rules are checked on the array before its elements are parsed. *)
Definition array {A} (elem : schema A) : schema (list A) :=
  fun f v => match v with VArr l => elements elem f l | _ => issue f "invalid_type" end.

Definition array_min {A} (s : schema (list A)) (lo : nat) : schema (list A) :=
  fun f v =>
    match v with
    | VArr l => if (List.length l <? lo)%nat then issue f "too_small" else s f v
    | _ => s f v
    end.

Definition array_max {A} (s : schema (list A)) (hi : nat) : schema (list A) :=
  fun f v =>
    match v with
    | VArr l => if (hi <? List.length l)%nat then issue f "too_big" else s f v
    | _ => s f v
    end.

(** [.optional()] *)
Definition optional {A} (s : schema A) : schema (option A) :=
  fun f v =>
    match v with
    | VUndefined => Ok None
    | _ => (x <- s f v ;; Ok (Some x))%res
    end.

(** [.default(d)] *)
Definition default {A} (s : schema (option A)) (d : A) : schema A :=
  fun f v =>
    match v with
    | VUndefined => Ok d
    | _ => (x <- s f v ;; Ok (match x with Some a => a | None => d end))%res
    end.

(** [z.object({ ... })]: the input must be an object; [shape] parses its
    fields, each with [field]. *)
Definition object {A} (shape : value -> result A) : schema A :=
  fun f v => match v with VObj _ => shape v | _ => issue f "invalid_type" end.

Definition field {A} (name : string) (s : schema A) (obj : value) : result A :=
  s name (JS.get_opt obj name).

End Zod.

Definition category_enum : Zod.schema string :=
  Zod.enum ["business"; "entertainment"; "general"; "health"; "science"; "sports"; "technology"].

(** ** Validated inputs ([ctx.input]) *)

Module HnTopInput.
Record t : Type := { limit : Z }.
End HnTopInput.

Module NewsInput.
Record t : Type := { category : string; limit : Z }.
End NewsInput.

Module SearchInput.
Record t : Type := { query : string; limit : Z }.
End SearchInput.

Module NewsMultiInput.
Record t : Type := { categories : list string; limitPerCategory : Z }.
End NewsMultiInput.

Module AllSignalsInput.
Record t : Type := { hnLimit : Z; newsCategory : string; newsLimit : Z }.
End AllSignalsInput.

(** ** Output payloads *)

Module Overview.
Record summary_t : Type := {
  hn_stories : Z;
  news_articles : Z;
  sources : list string
}.
Record sample_t : Type := {
  hn_top : value;
  news_top : value
}.
Record t : Type := {
  summary : summary_t;
  sample : sample_t;
  fetchedAt : value;
  upgrade : string
}.
End Overview.

Module HnTop.
Record t : Type := {
  count : Z;
  stories : list HNStory.t;
  fetchedAt : value
}.
End HnTop.

Module News.
Record t : Type := {
  category : string;
  count : Z;
  articles : list NewsArticle.t;
  fetchedAt : value
}.
End News.

Module Search.
Record t : Type := {
  query : string;
  count : Z;
  results : list SearchResult.t;
  fetchedAt : value
}.
End Search.

Module NewsMulti.
Record result_t : Type := {
  category : string;
  articles : list NewsArticle.t
}.
Record t : Type := {
  categories : list string;
  totalArticles : Z;
  results : list result_t;
  fetchedAt : value
}.
End NewsMulti.

Module AllSignals.
Module Hackernews.
Record t : Type := {
  count : Z;
  stories : list HNStory.t
}.
End Hackernews.
Module News.
Record t : Type := {
  category : string;
  count : Z;
  articles : list NewsArticle.t
}.
End News.
Module Totals.
Record t : Type := {
  sources : Z;
  items : Z
}.
End Totals.
Record t : Type := {
  hackernews : Hackernews.t;
  news : News.t;
  totals : Totals.t;
  fetchedAt : value
}.
End AllSignals.

Inductive payload : Type :=
| OverviewOut (o : Overview.t)
| HnTopOut (o : HnTop.t)
| NewsOut (o : News.t)
| SearchOut (o : Search.t)
| NewsMultiOut (o : NewsMulti.t)
| AllSignalsOut (o : AllSignals.t).

(** What a handler returns: [{ output: ... }]. *)
Record Envelope : Type := { output : payload }.

(** [xs.length] *)
Definition len {A} (xs : list A) : Z := Z.of_nat (List.length xs).

(** ** Entrypoints *)

Record Price : Type := { amount : Z }.

Record Entrypoint : Type := {
  key : string;
  description : string;
  Input : Type;
  input : Zod.schema Input;
  price : Price;
  handler : Input -> M Envelope
}.

(** [xs[0]?.title] *)
Definition first_title {A} (title : A -> value) (xs : list A) : value :=
  match xs with
  | [] => VUndefined
  | x :: _ => title x
  end.

(** *** Free endpoint: overview *)

Definition overview : Entrypoint := {|
  key := "overview";
  description := "Free overview of current social signals - try before you buy";
  input := Zod.object (fun _ => Ok tt);
  price := {| amount := 0 |};
  handler := fun _ =>
    ' (hnTop, news) <- promise_all2 (getHNTop (Some 3))
                                    (getNews (Some "technology") (Some 3)) ;;
    fetchedAt <- now_iso ;;
    ret {| output := OverviewOut {|
      Overview.summary := {|
        Overview.hn_stories := len hnTop;
        Overview.news_articles := len news;
        Overview.sources := ["hackernews"; "news"] |};
      Overview.sample := {|
        Overview.hn_top := JS.or_else (first_title HNStory.title hnTop) VNull;
        Overview.news_top := JS.or_else (first_title NewsArticle.title news) VNull |};
      Overview.fetchedAt := fetchedAt;
      Overview.upgrade := "Use paid endpoints for full data with pagination and filtering" |} |}
|}.

(** *** Paid endpoint 1: HN top stories *)

Definition hn_top : Entrypoint := {|
  key := "hn-top";
  description := "Get top Hacker News stories with scores and comments";
  input := Zod.object (fun o =>
    (limit <- Zod.field "limit"
       (Zod.default (Zod.optional (Zod.number_max (Zod.number_min Zod.number 1) 50)) 20) o ;;
     Ok {| HnTopInput.limit := limit |})%res);
  price := {| amount := 1000 |};
  handler := fun ctx_input =>
    stories <- getHNTop (Some (HnTopInput.limit ctx_input)) ;;
    fetchedAt <- now_iso ;;
    ret {| output := HnTopOut {|
      HnTop.count := len stories;
      HnTop.stories := stories;
      HnTop.fetchedAt := fetchedAt |} |}
|}.

(** *** Paid endpoint 2: news headlines *)

Definition news : Entrypoint := {|
  key := "news";
  description := "Get top news headlines by category";
  input := Zod.object (fun o =>
    (category <- Zod.field "category"
       (Zod.default (Zod.optional category_enum) "technology") o ;;
     limit <- Zod.field "limit"
       (Zod.default (Zod.optional (Zod.number_max (Zod.number_min Zod.number 1) 30)) 15) o ;;
     Ok {| NewsInput.category := category; NewsInput.limit := limit |})%res);
  price := {| amount := 1000 |};
  handler := fun ctx_input =>
    articles <- getNews (Some (NewsInput.category ctx_input))
                        (Some (NewsInput.limit ctx_input)) ;;
    fetchedAt <- now_iso ;;
    ret {| output := NewsOut {|
      News.category := NewsInput.category ctx_input;
      News.count := len articles;
      News.articles := articles;
      News.fetchedAt := fetchedAt |} |}
|}.

(** *** Paid endpoint 3: search by topic *)

Definition search : Entrypoint := {|
  key := "search";
  description := "Search social signals by topic across HN";
  input := Zod.object (fun o =>
    (query <- Zod.field "query"
       (Zod.string_max (Zod.string_min Zod.string_ 1) 100) o ;;
     limit <- Zod.field "limit"
       (Zod.default (Zod.optional (Zod.number_max (Zod.number_min Zod.number 1) 30)) 15) o ;;
     Ok {| SearchInput.query := query; SearchInput.limit := limit |})%res);
  price := {| amount := 2000 |};
  handler := fun ctx_input =>
    results <- searchHN (SearchInput.query ctx_input)
                        (Some (SearchInput.limit ctx_input)) ;;
    fetchedAt <- now_iso ;;
    ret {| output := SearchOut {|
      Search.query := SearchInput.query ctx_input;
      Search.count := len results;
      Search.results := results;
      Search.fetchedAt := fetchedAt |} |}
|}.

(** *** Paid endpoint 4: multi-category news *)

Definition news_multi : Entrypoint := {|
  key := "news-multi";
  description := "Get news from multiple categories in one call";
  input := Zod.object (fun o =>
    (categories <- Zod.field "categories"
       (Zod.array_max (Zod.array_min (Zod.array category_enum) 1) 4) o ;;
     limitPerCategory <- Zod.field "limitPerCategory"
       (Zod.default (Zod.optional (Zod.number_max (Zod.number_min Zod.number 1) 10)) 5) o ;;
     Ok {| NewsMultiInput.categories := categories;
           NewsMultiInput.limitPerCategory := limitPerCategory |})%res);
  price := {| amount := 2000 |};
  handler := fun ctx_input =>
    results <- promise_all
      (map (fun cat =>
              articles <- getNews (Some cat)
                                  (Some (NewsMultiInput.limitPerCategory ctx_input)) ;;
              ret {| NewsMulti.category := cat; NewsMulti.articles := articles |})
           (NewsMultiInput.categories ctx_input)) ;;
    fetchedAt <- now_iso ;;
    ret {| output := NewsMultiOut {|
      NewsMulti.categories := NewsMultiInput.categories ctx_input;
      NewsMulti.totalArticles :=
        fold_left (fun sum r => sum + len (NewsMulti.articles r)) results 0;
      NewsMulti.results := results;
      NewsMulti.fetchedAt := fetchedAt |} |}
|}.

(** *** Paid endpoint 5: all signals combined *)

Definition all_signals : Entrypoint := {|
  key := "all-signals";
  description := "Get aggregated signals from all sources in one call";
  input := Zod.object (fun o =>
    (hnLimit <- Zod.field "hnLimit"
       (Zod.default (Zod.optional (Zod.number_max (Zod.number_min Zod.number 1) 30)) 15) o ;;
     newsCategory <- Zod.field "newsCategory"
       (Zod.default (Zod.optional category_enum) "technology") o ;;
     newsLimit <- Zod.field "newsLimit"
       (Zod.default (Zod.optional (Zod.number_max (Zod.number_min Zod.number 1) 20)) 10) o ;;
     Ok {| AllSignalsInput.hnLimit := hnLimit;
           AllSignalsInput.newsCategory := newsCategory;
           AllSignalsInput.newsLimit := newsLimit |})%res);
  price := {| amount := 3000 |};
  handler := fun ctx_input =>
    ' (hn, news) <- promise_all2
        (getHNTop (Some (AllSignalsInput.hnLimit ctx_input)))
        (getNews (Some (AllSignalsInput.newsCategory ctx_input))
                 (Some (AllSignalsInput.newsLimit ctx_input))) ;;
    fetchedAt <- now_iso ;;
    ret {| output := AllSignalsOut {|
      AllSignals.hackernews := {|
        AllSignals.Hackernews.count := len hn;
        AllSignals.Hackernews.stories := hn |};
      AllSignals.news := {|
        AllSignals.News.category := AllSignalsInput.newsCategory ctx_input;
        AllSignals.News.count := len news;
        AllSignals.News.articles := news |};
      AllSignals.totals := {|
        AllSignals.Totals.sources := 2;
        AllSignals.Totals.items := len hn + len news |};
      AllSignals.fetchedAt := fetchedAt |} |}
|}.

(** ** The registry *)

(** [addEntrypoint(def)] adds one definition to the application. *)
Definition addEntrypoint (def : Entrypoint) (registry : list Entrypoint) : list Entrypoint :=
  (registry ++ [def])%list.

(** The registry once the module has been loaded. *)
Definition entrypoints : list Entrypoint :=
  addEntrypoint all_signals
    (addEntrypoint news_multi
       (addEntrypoint search
          (addEntrypoint news
             (addEntrypoint hn_top
                (addEntrypoint overview []))))).

Definition find_entrypoint (k : string) : option Entrypoint :=
  find (fun e => (key e =? k)%string) entrypoints.

(** Modelled from the spec: the Dispatch Runtime (section 4.4), which belongs
    to the agent framework; the source holds only its caller, the
    registrations above. Look the key up (unknown key: [NotFoundError]);
    validate the raw input against the schema of the definition (a violation
    is a [ValidationError] and the handler is not invoked); invoke the
    handler; report the declared price of the definition to the billing
    collaborator for every call of a known key, successful or attempted. *)
Definition dispatch (k : string) (rawInput : value) : M Envelope :=
  match find_entrypoint k with
  | None => throw NotFoundError
  | Some def =>
      fun w tr =>
        let (r, tr') :=
          match input def "input" rawInput with
          | Err e => (Err e, tr)
          | Ok validated => handler def validated w (tr ++ [EInvoke k])%list
          end in
        (r, (tr' ++ [EBill k (amount (price def))])%list)
  end.

(** * Specification vocabulary *)

(** ** What an upstream reply amounts to *)

(** The outcome of [fetchJSON] on a given reply. *)
Definition fetched_json (rp : reply) : result value :=
  match rp with
  | Unreachable => Err NetworkError
  | Answered r =>
      if negb (ok r) then Err (ApiError (status r))
      else match body r with
           | Some v => Ok v
           | None => Err SyntaxError
           end
  end.

(** The array an upstream returned under [field] ([hits], [articles]), when
    it answered with a success status and a JSON body holding one. *)
Definition reply_array (field : string) (rp : reply) : option (list value) :=
  match fetched_json rp with
  | Ok data =>
      match JS.get data field with
      | Ok (VArr elems) => Some elems
      | _ => None
      end
  | Err _ => None
  end.

(** The reply the upstream gives to a request for [url] issued after [tr]. *)
Definition reply_to (w : World) (tr : list event) (url : string) : reply :=
  upstream w (List.length tr) url.

(** The category [getNews] asks the upstream for. *)
Definition fetched_category (category : option string) : string :=
  let category := default "technology" category in
  if JS.includes validCategories category then category else "technology".


(** The url the code gives the discussion record made from [hit]: the [url]
    property of the hit when it is truthy (neither absent, null nor empty),
    and otherwise the permalink text built from its [objectID] turned into
    text. *)
Definition resolved_url_of (hit u : value) : Prop :=
  exists external id,
    JS.get hit "url" = Ok external /\
    JS.get hit "objectID" = Ok id /\
    (JS.truthy external = true -> u = external) /\
    (JS.truthy external = false ->
     exists text,
       JS.to_string id = Ok text /\
       u = VStr ("https://news.ycombinator.com/item?id=" ++ text)).

(** A resolvable url for [hit]: a non-empty text that is the external url
    of the hit itself, or the permalink of the hit's own identifier, a
    non-empty string [objectID]. *)
Definition resolvable_for (hit u : value) : Prop :=
  exists s,
    u = VStr s /\ s <> "" /\
    (JS.get_opt hit "url" = VStr s \/
     exists id,
       JS.get_opt hit "objectID" = VStr id /\ id <> "" /\
       s = "https://news.ycombinator.com/item?id=" ++ id).

(** A hit that offers something to resolve: a non-empty string url or,
    failing a usable url, a non-empty string [objectID]. *)
Definition has_url_or_id (hit : value) : Prop :=
  (exists s, JS.get_opt hit "url" = VStr s /\ s <> "") \/
  (JS.truthy (JS.get_opt hit "url") = false /\
   exists id, JS.get_opt hit "objectID" = VStr id /\ id <> "").

(** A hit the discussion callbacks turn into a record: it is not null, and
    it has a usable url or an [objectID] that can be turned into text. *)
Definition translatable (hit : value) : bool :=
  negb (JS.is_nullish hit)
  && (JS.truthy (JS.get_opt hit "url")
      || is_ok (JS.to_string (JS.get_opt hit "objectID"))).

(** An integer that a number holds and prints exactly. *)
Definition safe_integer (n : Z) : Prop := Z.abs n < 2 ^ 53.

(** The value of a hexadecimal digit, as the encoding writes them. *)
Definition hex_value (c : ascii) : option nat :=
  let n := nat_of_ascii c in
  if ((48 <=? n) && (n <=? 57))%nat then Some (n - 48)%nat
  else if ((65 <=? n) && (n <=? 70))%nat then Some (n - 55)%nat
  else None.

(** Reading a percent-encoded text back: [%XX] stands for the byte XX, any
    other character for itself. *)
Fixpoint percent_decode (s : string) : option string :=
  match s with
  | EmptyString => Some EmptyString
  | String c rest =>
      if Ascii.eqb c "%" then
        match rest with
        | String h (String l rest') =>
            match hex_value h, hex_value l, percent_decode rest' with
            | Some a, Some b, Some r => Some (String (ascii_of_nat (16 * a + b)) r)
            | _, _, _ => None
            end
        | _ => None
        end
      else
        match percent_decode rest with
        | Some r => Some (String c r)
        | None => None
        end
  end.

(** ** Sample upstreams *)

Module Sample.

Definition json_reply (data : value) : reply :=
  Answered {| status := 200; body := Some data |}.

Definition hit (title : string) (url : value) (objectID : string) : value :=
  VObj [("title", VStr title); ("url", url); ("objectID", VStr objectID);
        ("points", VNum 42); ("num_comments", VNum 7); ("author", VStr "pg");
        ("created_at", VStr "2024-05-01T08:00:00.000Z")].

Definition article (title : string) : value :=
  VObj [("title", VStr title); ("description", VNull);
        ("url", VStr "https://example.com/story");
        ("source", VObj [("id", VNull); ("name", VStr "Example")]);
        ("publishedAt", VStr "2024-05-01T08:00:00Z"); ("urlToImage", VNull)].

(** Both upstreams answer every request alike: the discussion upstream with
    [hits], the headline upstream with [articles]; any other host is
    unreachable. *)
Definition world (hits articles : list value) : World := {|
  upstream := fun _ url =>
    if String.prefix "https://hn.algolia.com/" url
    then json_reply (VObj [("hits", VArr hits)])
    else if String.prefix "https://saurav.tech/" url
    then json_reply (VObj [("status", VStr "ok"); ("articles", VArr articles)])
    else Unreachable;
  clock := "2024-05-01T12:00:00.000Z"
|}.

Definition four_hits : list value :=
  [hit "Show HN: one" (VStr "https://one.example") "101";
   hit "Ask HN: two" VNull "102";
   hit "three" (VStr "") "103";
   hit "four" (VStr "https://four.example") "104"].

Definition three_articles : list value :=
  [article "alpha"; article "beta"; article "gamma"].

Definition five_articles : list value :=
  [article "alpha"; article "beta"; article "gamma"; article "delta"; article "epsilon"].

(** Every host answers 200 with a body that is not JSON (an HTML page,
    say). *)
Definition html_world : World := {|
  upstream := fun _ _ => Answered {| status := 200; body := None |};
  clock := "2024-05-01T12:00:00.000Z"
|}.

(** Every host answers 200 with a JSON body that holds no list. *)
Definition message_world : World := {|
  upstream := fun _ _ => json_reply (VObj [("message", VStr "rate limit exceeded")]);
  clock := "2024-05-01T12:00:00.000Z"
|}.

(** Every host answers 503. *)
Definition down_world : World := {|
  upstream := fun _ _ => Answered {| status := 503; body := None |};
  clock := "2024-05-01T12:00:00.000Z"
|}.

End Sample.

(** ** Observations on traces and payloads *)

(** A request to an upstream other than the trends endpoint. *)
Definition upstream_request (e : event) : Prop :=
  exists url, e = EFetch url /\ url <> trends_url.

(** A computation only appends to the trace, and what it appends satisfies
    [P]. *)
Definition extends_by {A} (P : event -> Prop) (m : M A) : Prop :=
  forall w tr, exists evs, snd (m w tr) = (tr ++ evs)%list /\ Forall P evs.

(** The prices reported to the billing collaborator, in order. *)
Definition bills (tr : list event) : list (string * Z) :=
  flat_map (fun e => match e with EBill k a => [(k, a)] | _ => [] end) tr.

(** The [source] tags of the Signal Records a payload holds. *)
Definition signal_sources (p : payload) : list string :=
  match p with
  | OverviewOut _ => []
  | HnTopOut o => map HNStory.source (HnTop.stories o)
  | NewsOut o => map NewsArticle.source (News.articles o)
  | SearchOut o => map SearchResult.source (Search.results o)
  | NewsMultiOut o =>
      flat_map (fun r => map NewsArticle.source (NewsMulti.articles r)) (NewsMulti.results o)
  | AllSignalsOut o =>
      (map HNStory.source (AllSignals.Hackernews.stories (AllSignals.hackernews o))
       ++ map NewsArticle.source (AllSignals.News.articles (AllSignals.news o)))%list
  end.

(** The sum of a list of counts. *)
Definition sum_Z (l : list Z) : Z := fold_right Z.add 0 l.

(** ** Upstream failures and accepted field values *)

(** The ways an upstream reply makes [fetchJSON] reject, with the rejection
    each one produces. *)
Inductive upstream_failure : reply -> error -> Prop :=
| failure_network :
    upstream_failure Unreachable NetworkError
| failure_status (r : Response) :
    ok r = false -> upstream_failure (Answered r) (ApiError (status r))
| failure_body (r : Response) :
    ok r = true -> body r = None -> upstream_failure (Answered r) SyntaxError.

(** The value [n] a numeric field with bounds and a default validates to:
    the default when the field is absent, the number itself when it lies
    within the bounds. *)
Definition bounded_or_default (v : value) (lo hi d n : Z) : Prop :=
  (v = VUndefined /\ n = d) \/ (v = VNum n /\ lo <= n <= hi).

(** The category a category field validates to: [technology] when the field
    is absent, the string itself when it is one of the enumeration. *)
Definition category_or_default (v : value) (c : string) : Prop :=
  (v = VUndefined /\ c = "technology") \/
  (v = VStr c /\
   In c ["business"; "entertainment"; "general"; "health"; "science"; "sports";
         "technology"]).

(** The characters of a string. *)
Fixpoint chars (s : string) : list ascii :=
  match s with
  | EmptyString => []
  | String c rest => c :: chars rest
  end.

(** A value that is neither an object nor an array; turning such a value
    into a string never throws. *)
Definition is_primitive (v : value) : bool :=
  match v with
  | VArr _ | VObj _ => false
  | _ => true
  end.
(** * Properties *)

Lemma fetchJSON_run (url : string) (w : World) (tr : list event) :
  fetchJSON url w tr = (fetched_json (reply_to w tr url), (tr ++ [EFetch url])%list).
Proof.
  unfold fetchJSON, bind, fetch, reply_to, fetched_json, json, throw, ret.
  destruct (upstream w (List.length tr) url) as [|r]; [reflexivity|].
  destruct (negb (ok r)); [reflexivity|].
  destruct (body r); reflexivity.
Qed.

Lemma getHNTop_run (limit : option Z) (w : World) (tr : list event) :
  getHNTop limit w tr =
  ((data <- fetched_json (reply_to w tr (hn_top_url (default 10 limit))) ;;
    hits <- JS.get data "hits" ;;
    array_map hn_story hits)%res,
   (tr ++ [EFetch (hn_top_url (default 10 limit))])%list).
Proof.
  unfold getHNTop, bind, lift. rewrite fetchJSON_run.
  destruct (fetched_json _); reflexivity.
Qed.

Lemma searchHN_run (query : string) (limit : option Z) (w : World) (tr : list event) :
  searchHN query limit w tr =
  ((data <- fetched_json (reply_to w tr (hn_search_url query (default 10 limit))) ;;
    hits <- JS.get data "hits" ;;
    array_map search_result hits)%res,
   (tr ++ [EFetch (hn_search_url query (default 10 limit))])%list).
Proof.
  unfold searchHN, bind, lift. rewrite fetchJSON_run.
  destruct (fetched_json _); reflexivity.
Qed.

Lemma getNews_run (category : option string) (limit : option Z) (w : World) (tr : list event) :
  getNews category limit w tr =
  ((data <- fetched_json (reply_to w tr (news_url (fetched_category category))) ;;
    articles <- JS.get data "articles" ;;
    array_slice_map news_article articles (default 10 limit))%res,
   (tr ++ [EFetch (news_url (fetched_category category))])%list).
Proof.
  unfold getNews, bind, lift. rewrite fetchJSON_run.
  unfold fetched_category.
  destruct (fetched_json _); reflexivity.
Qed.

(** Reading an array out of a reply, in both directions. *)
Lemma reply_array_Some {A} (field : string) (rp : reply) (elems : list value)
      (k : value -> result A) :
  reply_array field rp = Some elems ->
  (data <- fetched_json rp ;; arr <- JS.get data field ;; k arr)%res = k (VArr elems).
Proof.
  unfold reply_array. destruct (fetched_json rp) as [data|e]; [|discriminate].
  cbn [rbind]. destruct (JS.get data field) as [[| | | | |l|]|e]; try discriminate.
  intros H; inversion H; subst. reflexivity.
Qed.

Lemma reply_array_of_success {A} (field : string) (rp : reply) (k : value -> result A) (a : A) :
  (forall v, (forall l, v <> VArr l) -> k v = Err TypeError) ->
  (data <- fetched_json rp ;; arr <- JS.get data field ;; k arr)%res = Ok a ->
  exists elems, reply_array field rp = Some elems /\ k (VArr elems) = Ok a.
Proof.
  intros Hk. unfold reply_array.
  destruct (fetched_json rp) as [data|e]; cbn [rbind]; [|discriminate].
  destruct (JS.get data field) as [v|e]; cbn [rbind]; [|discriminate].
  destruct v as [| | | | |l|];
    try (rewrite Hk by (intros l; discriminate); discriminate).
  intros H. exists l. split; [reflexivity|exact H].
Qed.

Lemma array_map_not_array {A} (f : value -> result A) (v : value) :
  (forall l, v <> VArr l) -> array_map f v = Err TypeError.
Proof.
  intros H. destruct v; try reflexivity. exfalso. exact (H _ eq_refl).
Qed.

Lemma array_slice_map_not_array {A} (f : value -> result A) (limit : Z) (v : value) :
  (forall l, v <> VArr l) -> array_slice_map f v limit = Err TypeError.
Proof.
  intros H. destruct v; try reflexivity. exfalso. exact (H _ eq_refl).
Qed.

(** ** [map] with a callback that may throw *)

Lemma map_throwing_Forall2 {A} (f : value -> result A) (l : list value) (ys : list A) :
  JS.map_throwing f l = Ok ys -> Forall2 (fun x y => f x = Ok y) l ys.
Proof.
  revert ys. induction l as [|x rest IH]; intros ys H; cbn in H.
  - inversion H. constructor.
  - destruct (f x) as [y|e] eqn:Hx; cbn in H; [|discriminate].
    destruct (JS.map_throwing f rest) as [ys'|e]; cbn in H; [|discriminate].
    inversion H; subst. constructor; [exact Hx|]. apply IH. reflexivity.
Qed.

Lemma map_throwing_total {A} (f : value -> result A) (l : list value) :
  Forall (fun x => exists y, f x = Ok y) l ->
  exists ys, JS.map_throwing f l = Ok ys.
Proof.
  induction 1 as [|x rest [y Hy] _ [ys IH]]; cbn.
  - exists []. reflexivity.
  - rewrite Hy, IH. cbn. exists (y :: ys). reflexivity.
Qed.

Lemma Forall2_length_eq {A B} (R : A -> B -> Prop) (l : list A) (l' : list B) :
  Forall2 R l l' -> List.length l = List.length l'.
Proof.
  induction 1; cbn; congruence.
Qed.

(** ** One hit, one record *)

Lemma get_not_nullish (item : value) (k : string) :
  JS.is_nullish item = false -> exists v, JS.get item k = Ok v.
Proof.
  destruct item; cbn; try discriminate; eauto.
Qed.

Lemma get_same_item (item : value) (k k' : string) (v : value) :
  JS.get item k = Ok v -> exists v', JS.get item k' = Ok v'.
Proof.
  destruct item; cbn; try discriminate; eauto.
Qed.

Lemma get_nullish (item : value) (k : string) :
  JS.is_nullish item = true -> JS.get item k = Err TypeError.
Proof.
  destruct item; cbn; try discriminate; reflexivity.
Qed.

Lemma get_get_opt (item : value) (k : string) (v : value) :
  JS.get item k = Ok v -> v = JS.get_opt item k.
Proof.
  destruct item; cbn; intros H; inversion H; reflexivity.
Qed.

Lemma get_of_object (item : value) (k : string) :
  JS.is_nullish item = false -> JS.get item k = Ok (JS.get_opt item k).
Proof.
  destruct item; cbn; try discriminate; reflexivity.
Qed.

Lemma translatable_not_nullish (item : value) :
  translatable item = true -> JS.is_nullish item = false.
Proof.
  unfold translatable. destruct (JS.is_nullish item); [discriminate|reflexivity].
Qed.

(** The url of a hit can be worked out exactly when the hit is
    translatable. *)
Lemma hn_url_translatable (item : value) :
  (exists u, hn_url item = Ok u) <-> translatable item = true.
Proof.
  unfold hn_url, translatable. destruct (JS.is_nullish item) eqn:Hn.
  - rewrite (get_nullish item "url" Hn). cbn [rbind negb andb].
    split; [intros [u H]; discriminate H|discriminate].
  - rewrite !(get_of_object item _ Hn). cbn [rbind negb andb].
    destruct (JS.truthy (JS.get_opt item "url")); cbn [orb].
    + split; eauto.
    + destruct (JS.to_string (JS.get_opt item "objectID")) as [text|e]; cbn [rbind is_ok].
      * split; eauto.
      * split; [intros [u H]; discriminate H|discriminate].
Qed.

Lemma hn_url_total (item : value) :
  translatable item = true -> exists u, hn_url item = Ok u.
Proof.
  apply hn_url_translatable.
Qed.

Lemma hn_story_total (item : value) :
  translatable item = true -> exists s, hn_story item = Ok s.
Proof.
  intros H. pose proof (translatable_not_nullish item H) as Hn. unfold hn_story.
  destruct (hn_url_total item H) as [u ->].
  rewrite !(get_of_object item _ Hn). cbn. eauto.
Qed.

Lemma search_result_total (item : value) :
  translatable item = true -> exists s, search_result item = Ok s.
Proof.
  intros H. pose proof (translatable_not_nullish item H) as Hn. unfold search_result.
  destruct (hn_url_total item H) as [u ->].
  rewrite !(get_of_object item _ Hn). cbn. eauto.
Qed.

Lemma news_article_total (article : value) :
  JS.is_nullish article = false -> exists a, news_article article = Ok a.
Proof.
  intros H. unfold news_article.
  rewrite !(get_of_object article _ H). cbn. eauto.
Qed.

Lemma hn_url_resolved (item u : value) :
  hn_url item = Ok u -> resolved_url_of item u /\ JS.truthy u = true.
Proof.
  unfold hn_url, resolved_url_of. intros H.
  destruct (JS.get item "url") as [external|e] eqn:Hurl; cbn [rbind] in H; [|discriminate].
  destruct (get_same_item item "url" "objectID" external Hurl) as [id Hid].
  rewrite Hid in H. cbn [rbind] in H.
  destruct (JS.truthy external) eqn:Ht.
  - inversion H; subst u. split; [|exact Ht]. exists external, id.
    split; [reflexivity|]. split; [exact Hid|].
    split; [reflexivity|rewrite Ht; discriminate].
  - destruct (JS.to_string id) as [text|e] eqn:Htext; cbn [rbind] in H; [|discriminate].
    inversion H; subst u. split; [|reflexivity]. exists external, id.
    split; [reflexivity|]. split; [exact Hid|].
    split; [rewrite Ht; discriminate|]. intros _. exists text. split; [exact Htext|reflexivity].
Qed.

Lemma hn_url_resolvable (item u : value) :
  hn_url item = Ok u -> has_url_or_id item -> resolvable_for item u.
Proof.
  intros H Hhas. apply hn_url_resolved in H.
  destruct H as [(external & id & Hurl & Hid & Hpresent & Habsent) _].
  apply get_get_opt in Hurl, Hid. subst external id.
  destruct Hhas as [[s [Hs Hne]]|[Hfalsy [id [Hid Hne]]]].
  - exists s. rewrite Hs in Hpresent. split.
    + apply Hpresent. cbn. destruct s; [contradiction|reflexivity].
    + split; [exact Hne|left; exact Hs].
  - destruct (Habsent Hfalsy) as [text [Htext ->]].
    rewrite Hid in Htext. cbn in Htext. inversion Htext; subst text.
    exists ("https://news.ycombinator.com/item?id=" ++ id). split; [reflexivity|].
    split; [discriminate|]. right. exists id. split; [exact Hid|]. split; [exact Hne|reflexivity].
Qed.

Lemma hn_story_url (item : value) (s : HNStory.t) :
  hn_story item = Ok s -> hn_url item = Ok (HNStory.url s).
Proof.
  unfold hn_story. intros H.
  repeat match type of H with
         | rbind ?r _ = Ok _ => destruct r; cbn [rbind] in H; [|discriminate]
         end.
  inversion H. reflexivity.
Qed.

Lemma search_result_url (item : value) (r : SearchResult.t) :
  search_result item = Ok r -> hn_url item = Ok (SearchResult.url r).
Proof.
  unfold search_result. intros H.
  repeat match type of H with
         | rbind ?r _ = Ok _ => destruct r; cbn [rbind] in H; [|discriminate]
         end.
  inversion H. reflexivity.
Qed.

Lemma hn_story_translatable (item : value) (s : HNStory.t) :
  hn_story item = Ok s -> translatable item = true.
Proof.
  intros H. apply hn_url_translatable. exists (HNStory.url s). apply hn_story_url. exact H.
Qed.

Lemma search_result_translatable (item : value) (r : SearchResult.t) :
  search_result item = Ok r -> translatable item = true.
Proof.
  intros H. apply hn_url_translatable. exists (SearchResult.url r).
  apply search_result_url. exact H.
Qed.

Lemma hn_story_source (item : value) (s : HNStory.t) :
  hn_story item = Ok s -> HNStory.source s = "hackernews".
Proof.
  unfold hn_story. intros H.
  repeat match type of H with
         | rbind ?r _ = Ok _ => destruct r; cbn [rbind] in H; [|discriminate]
         end.
  inversion H. reflexivity.
Qed.

Lemma search_result_source (item : value) (r : SearchResult.t) :
  search_result item = Ok r -> SearchResult.source r = "hackernews".
Proof.
  unfold search_result. intros H.
  repeat match type of H with
         | rbind ?r _ = Ok _ => destruct r; cbn [rbind] in H; [|discriminate]
         end.
  inversion H. reflexivity.
Qed.

Lemma news_article_source (article : value) (a : NewsArticle.t) :
  news_article article = Ok a -> NewsArticle.source a = "news".
Proof.
  unfold news_article. intros H.
  repeat match type of H with
         | rbind ?r _ = Ok _ => destruct r; cbn [rbind] in H; [|discriminate]
         end.
  inversion H. reflexivity.
Qed.

(** ** The discussion adapters *)

Lemma getHNTop_success (limit : option Z) (w : World) (tr tr' : list event)
      (stories : list HNStory.t) :
  getHNTop limit w tr = (Ok stories, tr') ->
  exists hits,
    reply_array "hits" (reply_to w tr (hn_top_url (default 10 limit))) = Some hits /\
    Forall2 (fun h s => hn_story h = Ok s) hits stories.
Proof.
  rewrite getHNTop_run. intros H. inversion H as [[Hr Htr]].
  apply reply_array_of_success in Hr; [|intros v Hv; apply array_map_not_array; exact Hv].
  destruct Hr as [hits [Hhits Hmap]]. exists hits. split; [exact Hhits|].
  apply map_throwing_Forall2. exact Hmap.
Qed.

Lemma searchHN_success (query : string) (limit : option Z) (w : World) (tr tr' : list event)
      (results : list SearchResult.t) :
  searchHN query limit w tr = (Ok results, tr') ->
  exists hits,
    reply_array "hits" (reply_to w tr (hn_search_url query (default 10 limit))) = Some hits /\
    Forall2 (fun h r => search_result h = Ok r) hits results.
Proof.
  rewrite searchHN_run. intros H. inversion H as [[Hr Htr]].
  apply reply_array_of_success in Hr; [|intros v Hv; apply array_map_not_array; exact Hv].
  destruct Hr as [hits [Hhits Hmap]]. exists hits. split; [exact Hhits|].
  apply map_throwing_Forall2. exact Hmap.
Qed.

Lemma getHNTop_returns (limit : option Z) (w : World) (tr : list event) (hits : list value) :
  reply_array "hits" (reply_to w tr (hn_top_url (default 10 limit))) = Some hits ->
  Forall (fun h => translatable h = true) hits ->
  exists stories,
    getHNTop limit w tr = (Ok stories, (tr ++ [EFetch (hn_top_url (default 10 limit))])%list).
Proof.
  intros Hhits Hobj. rewrite getHNTop_run.
  rewrite (reply_array_Some _ _ _ _ Hhits). cbn [array_map].
  destruct (map_throwing_total hn_story hits) as [stories ->].
  - eapply Forall_impl; [|exact Hobj]. intros h. apply hn_story_total.
  - exists stories. reflexivity.
Qed.

Lemma searchHN_returns (query : string) (limit : option Z) (w : World) (tr : list event)
      (hits : list value) :
  reply_array "hits" (reply_to w tr (hn_search_url query (default 10 limit))) = Some hits ->
  Forall (fun h => translatable h = true) hits ->
  exists results,
    searchHN query limit w tr =
    (Ok results, (tr ++ [EFetch (hn_search_url query (default 10 limit))])%list).
Proof.
  intros Hhits Hobj. rewrite searchHN_run.
  rewrite (reply_array_Some _ _ _ _ Hhits). cbn [array_map].
  destruct (map_throwing_total search_result hits) as [results ->].
  - eapply Forall_impl; [|exact Hobj]. intros h. apply search_result_total.
  - exists results. reflexivity.
Qed.

Lemma Forall2_impl_In {A B} (R S : A -> B -> Prop) (l : list A) (l' : list B) :
  (forall x y, In x l -> R x y -> S x y) -> Forall2 R l l' -> Forall2 S l l'.
Proof.
  intros HRS HF. induction HF as [|x y l l' Hxy _ IH]; constructor.
  - apply HRS; [left; reflexivity|exact Hxy].
  - apply IH. intros x' y' Hin. apply HRS. right. exact Hin.
Qed.

Lemma Forall2_Forall_left {A B} (R : A -> B -> Prop) (P : A -> Prop)
      (l : list A) (l' : list B) :
  (forall x y, R x y -> P x) -> Forall2 R l l' -> Forall P l.
Proof.
  intros HR. induction 1 as [|x y l l' Hxy _ IH]; constructor; eauto.
Qed.

(** C9, as the code has it. For every limit that a number holds exactly and
    every answer of the discussion upstream holding an array of hits,
    [getHNTop] and [searchHN] issue one request, whose url carries the limit
    as [hitsPerPage] and nothing else of it; they return exactly when every
    hit is translatable (not null, and with a usable url or an [objectID]
    that has a text form), and what they return is one record per hit, in
    upstream order, as many records as there are hits: nothing is cut on the
    client side. *)
Theorem discussion_adapters_return_every_hit :
  forall (limit : option Z) (query : string) (w : World) (tr : list event)
         (hits : list value),
    safe_integer (default 10 limit) ->
    (reply_array "hits"
       (reply_to w tr
          ("https://hn.algolia.com/api/v1/search?tags=front_page&hitsPerPage="
             ++ JS.string_of_Z (default 10 limit))) = Some hits ->
     snd (getHNTop limit w tr) =
       (tr ++ [EFetch ("https://hn.algolia.com/api/v1/search?tags=front_page&hitsPerPage="
                         ++ JS.string_of_Z (default 10 limit))])%list /\
     ((exists stories, fst (getHNTop limit w tr) = Ok stories)
      <-> Forall (fun h => translatable h = true) hits) /\
     (forall stories,
         fst (getHNTop limit w tr) = Ok stories ->
         Forall2 (fun h s => hn_story h = Ok s) hits stories /\
         List.length stories = List.length hits)) /\
    (reply_array "hits"
       (reply_to w tr
          ("https://hn.algolia.com/api/v1/search?query=" ++ JS.encodeURIComponent query
             ++ "&hitsPerPage=" ++ JS.string_of_Z (default 10 limit))) = Some hits ->
     snd (searchHN query limit w tr) =
       (tr ++ [EFetch ("https://hn.algolia.com/api/v1/search?query="
                         ++ JS.encodeURIComponent query
                         ++ "&hitsPerPage=" ++ JS.string_of_Z (default 10 limit))])%list /\
     ((exists results, fst (searchHN query limit w tr) = Ok results)
      <-> Forall (fun h => translatable h = true) hits) /\
     (forall results,
         fst (searchHN query limit w tr) = Ok results ->
         Forall2 (fun h r => search_result h = Ok r) hits results /\
         List.length results = List.length hits)).
Proof.
  intros limit query w tr hits _.
  change ("https://hn.algolia.com/api/v1/search?tags=front_page&hitsPerPage="
            ++ JS.string_of_Z (default 10 limit))
    with (hn_top_url (default 10 limit)).
  change ("https://hn.algolia.com/api/v1/search?query=" ++ JS.encodeURIComponent query
            ++ "&hitsPerPage=" ++ JS.string_of_Z (default 10 limit))
    with (hn_search_url query (default 10 limit)).
  split; intros Hhits.
  - assert (Hsucc : forall stories,
               fst (getHNTop limit w tr) = Ok stories ->
               Forall2 (fun h s => hn_story h = Ok s) hits stories).
    { intros stories Hok.
      destruct (getHNTop limit w tr) as [r tr'] eqn:Hrun. cbn [fst] in Hok. subst r.
      destruct (getHNTop_success _ _ _ _ _ Hrun) as [hits' [Hhits' HF]].
      rewrite Hhits in Hhits'. inversion Hhits'; subst hits'. exact HF. }
    split; [rewrite getHNTop_run; reflexivity|]. split.
    + split.
      * intros [stories Hok]. apply Hsucc in Hok.
        eapply Forall2_Forall_left; [|exact Hok]. intros h s. apply hn_story_translatable.
      * intros Hall. destruct (getHNTop_returns limit w tr hits Hhits Hall) as [stories Hrun].
        exists stories. rewrite Hrun. reflexivity.
    + intros stories Hok. apply Hsucc in Hok. split; [exact Hok|].
      symmetry. eapply Forall2_length_eq. exact Hok.
  - assert (Hsucc : forall results,
               fst (searchHN query limit w tr) = Ok results ->
               Forall2 (fun h r => search_result h = Ok r) hits results).
    { intros results Hok.
      destruct (searchHN query limit w tr) as [r tr'] eqn:Hrun. cbn [fst] in Hok. subst r.
      destruct (searchHN_success _ _ _ _ _ _ Hrun) as [hits' [Hhits' HF]].
      rewrite Hhits in Hhits'. inversion Hhits'; subst hits'. exact HF. }
    split; [rewrite searchHN_run; reflexivity|]. split.
    + split.
      * intros [results Hok]. apply Hsucc in Hok.
        eapply Forall2_Forall_left; [|exact Hok]. intros h r. apply search_result_translatable.
      * intros Hall.
        destruct (searchHN_returns query limit w tr hits Hhits Hall) as [results Hrun].
        exists results. rewrite Hrun. reflexivity.
    + intros results Hok. apply Hsucc in Hok. split; [exact Hok|].
      symmetry. eapply Forall2_length_eq. exact Hok.
Qed.

(** Asked for 3 hits, an upstream that answers with 4 gets 4 records back. *)
Lemma discussion_adapters_return_every_hit_witness :
  (snd (getHNTop (Some 3) (Sample.world Sample.four_hits []) []) =
     [EFetch "https://hn.algolia.com/api/v1/search?tags=front_page&hitsPerPage=3"] /\
   exists stories,
     fst (getHNTop (Some 3) (Sample.world Sample.four_hits []) []) = Ok stories /\
     List.length stories = 4%nat) /\
  (snd (searchHN "rocq & co" (Some 3) (Sample.world Sample.four_hits []) []) =
     [EFetch "https://hn.algolia.com/api/v1/search?query=rocq%20%26%20co&hitsPerPage=3"] /\
   exists results,
     fst (searchHN "rocq & co" (Some 3) (Sample.world Sample.four_hits []) []) = Ok results /\
     List.length results = 4%nat).
Proof.
  destruct (discussion_adapters_return_every_hit
              (Some 3) "rocq & co" (Sample.world Sample.four_hits []) [] Sample.four_hits)
    as [Htop Hsearch].
  - reflexivity.
  - split.
    + destruct (Htop eq_refl) as (Htr & Hiff & Hone).
      split; [exact Htr|].
      destruct (proj2 Hiff) as [stories Hok]; [repeat constructor|].
      exists stories. split; [exact Hok|]. apply (Hone stories Hok).
    + destruct (Hsearch eq_refl) as (Htr & Hiff & Hone).
      split; [exact Htr|].
      destruct (proj2 Hiff) as [results Hok]; [repeat constructor|].
      exists results. split; [exact Hok|]. apply (Hone results Hok).
Defined.

(** C9 as stated fails: an answer with three hits of which one is null gets
    no record back, from either adapter; the call rejects. *)
Lemma discussion_adapters_null_hit_counterexample :
  reply_array "hits"
    (reply_to (Sample.world [Sample.hit "first" VNull "1"; VNull;
                             Sample.hit "third" VNull "3"] []) []
       (hn_top_url 5))
    = Some [Sample.hit "first" VNull "1"; VNull; Sample.hit "third" VNull "3"] /\
  fst (getHNTop (Some 5)
         (Sample.world [Sample.hit "first" VNull "1"; VNull;
                        Sample.hit "third" VNull "3"] []) [])
    = Err TypeError /\
  fst (searchHN "rocq" (Some 5)
         (Sample.world [Sample.hit "first" VNull "1"; VNull;
                        Sample.hit "third" VNull "3"] []) [])
    = Err TypeError.
Proof.
  split; [reflexivity|]. split; reflexivity.
Qed.

(** C8, as the code has it. Every record made by [getHNTop] or [searchHN]
    comes from one hit of the upstream answer and carries as url the [url]
    of that hit when it is truthy, and the permalink text of the hit's
    [objectID] otherwise; the url is never an empty value. It is a
    resolvable url, the hit's own url or the permalink of its own
    identifier, whenever the hit has a non-empty string url or, failing a
    usable url, a non-empty string [objectID]. *)
Theorem discussion_records_carry_resolved_url :
  forall (limit : option Z) (query : string) (w : World) (tr : list event),
    (forall stories tr',
        getHNTop limit w tr = (Ok stories, tr') ->
        exists hits,
          reply_array "hits" (reply_to w tr (hn_top_url (default 10 limit))) = Some hits /\
          Forall2 (fun hit s =>
                     resolved_url_of hit (HNStory.url s) /\
                     JS.truthy (HNStory.url s) = true /\
                     (has_url_or_id hit -> resolvable_for hit (HNStory.url s)))
                  hits stories) /\
    (forall results tr',
        searchHN query limit w tr = (Ok results, tr') ->
        exists hits,
          reply_array "hits" (reply_to w tr (hn_search_url query (default 10 limit)))
            = Some hits /\
          Forall2 (fun hit r =>
                     resolved_url_of hit (SearchResult.url r) /\
                     JS.truthy (SearchResult.url r) = true /\
                     (has_url_or_id hit -> resolvable_for hit (SearchResult.url r)))
                  hits results).
Proof.
  intros limit query w tr. split.
  - intros stories tr' Hrun.
    destruct (getHNTop_success _ _ _ _ _ Hrun) as [hits [Hhits HF]].
    exists hits. split; [exact Hhits|].
    clear Hrun Hhits. induction HF as [|hit s hits stories Hs _ IH]; constructor; [|exact IH].
    apply hn_story_url in Hs. destruct (hn_url_resolved _ _ Hs) as [Hres Htruthy].
    split; [exact Hres|]. split; [exact Htruthy|]. apply hn_url_resolvable. exact Hs.
  - intros results tr' Hrun.
    destruct (searchHN_success _ _ _ _ _ _ Hrun) as [hits [Hhits HF]].
    exists hits. split; [exact Hhits|].
    clear Hrun Hhits. induction HF as [|hit r hits results Hr _ IH]; constructor; [|exact IH].
    apply search_result_url in Hr. destruct (hn_url_resolved _ _ Hr) as [Hres Htruthy].
    split; [exact Hres|]. split; [exact Htruthy|]. apply hn_url_resolvable. exact Hr.
Qed.

(** The four sample hits each offer a url or an identifier, and each of
    their records carries a resolvable url. *)
Lemma discussion_records_carry_resolved_url_witness :
  (exists stories,
      Forall2 (fun hit s => resolvable_for hit (HNStory.url s)) Sample.four_hits stories /\
      List.length stories = 4%nat) /\
  (exists results,
      Forall2 (fun hit r => resolvable_for hit (SearchResult.url r)) Sample.four_hits results /\
      List.length results = 4%nat).
Proof.
  assert (Hhas : forall hit, In hit Sample.four_hits -> has_url_or_id hit).
  { intros hit [<-|[<-|[<-|[<-|[]]]]].
    - left. eexists. split; [reflexivity|discriminate].
    - right. split; [reflexivity|]. eexists. split; [reflexivity|discriminate].
    - right. split; [reflexivity|]. eexists. split; [reflexivity|discriminate].
    - left. eexists. split; [reflexivity|discriminate]. }
  destruct (discussion_records_carry_resolved_url
              (Some 3) "rocq" (Sample.world Sample.four_hits []) []) as [Htop Hsearch].
  split.
  - destruct (Htop _ _ eq_refl) as [hits [Hhits HF]].
    inversion Hhits; subst hits. eexists. split.
    + eapply Forall2_impl_In; [|exact HF].
      intros hit s Hin (_ & _ & Hres). apply Hres. apply Hhas. exact Hin.
    + reflexivity.
  - destruct (Hsearch _ _ eq_refl) as [hits [Hhits HF]].
    inversion Hhits; subst hits. eexists. split.
    + eapply Forall2_impl_In; [|exact HF].
      intros hit r Hin (_ & _ & Hres). apply Hres. apply Hhas. exact Hin.
    + reflexivity.
Defined.

(** C8 as stated fails in its last part: a hit with an empty url and no
    [objectID] gets the permalink of the text [undefined], which is neither
    the url of the hit nor the permalink of an identifier of its own. *)
Lemma discussion_record_unresolvable_url_counterexample :
  exists s r,
    hn_story (VObj [("title", VStr "untracked"); ("url", VStr "")]) = Ok s /\
    search_result (VObj [("title", VStr "untracked"); ("url", VStr "")]) = Ok r /\
    HNStory.url s = VStr "https://news.ycombinator.com/item?id=undefined" /\
    SearchResult.url r = VStr "https://news.ycombinator.com/item?id=undefined" /\
    ~ resolvable_for (VObj [("title", VStr "untracked"); ("url", VStr "")]) (HNStory.url s).
Proof.
  eexists. eexists. split; [reflexivity|]. split; [reflexivity|].
  split; [reflexivity|]. split; [reflexivity|].
  cbn [HNStory.url]. intros (s & Hs & Hne & [Hurl|(id & Hid & _)]).
  - cbn in Hurl. inversion Hurl; subst s. contradiction.
  - cbn in Hid. discriminate Hid.
Qed.

(** ** The headline adapter *)

Lemma includes_In (l : list string) (c : string) :
  JS.includes l c = true <-> In c l.
Proof.
  unfold JS.includes. rewrite existsb_exists. split.
  - intros [x [Hin Heq]]. apply String.eqb_eq in Heq. subst x. exact Hin.
  - intros Hin. exists c. split; [exact Hin|apply String.eqb_refl].
Qed.

Lemma fetched_category_valid (category : string) :
  In category validCategories -> fetched_category (Some category) = category.
Proof.
  intros Hin. unfold fetched_category. cbn [default].
  apply includes_In in Hin. rewrite Hin. reflexivity.
Qed.

Lemma fetched_category_invalid (category : string) :
  ~ In category validCategories -> fetched_category (Some category) = "technology".
Proof.
  intros Hnot. unfold fetched_category. cbn [default].
  destruct (JS.includes validCategories category) eqn:Hinc; [|reflexivity].
  apply includes_In in Hinc. contradiction.
Qed.

(** C5. [getNews] issues one request. For a category of the enumerated set
    the request is for that very category; for any other string the call is
    not rejected: it does exactly what a call for [technology] does, and so
    requests [technology]. *)
Theorem getNews_fetches_category_or_technology :
  forall (category : string) (limit : option Z) (w : World) (tr : list event),
    (In category ["business"; "entertainment"; "general"; "health"; "science";
                  "sports"; "technology"] ->
     snd (getNews (Some category) limit w tr) =
       (tr ++ [EFetch ("https://saurav.tech/NewsAPI/top-headlines/category/"
                         ++ category ++ "/us.json")])%list) /\
    (~ In category ["business"; "entertainment"; "general"; "health"; "science";
                    "sports"; "technology"] ->
     getNews (Some category) limit w tr = getNews (Some "technology") limit w tr /\
     snd (getNews (Some category) limit w tr) =
       (tr ++ [EFetch "https://saurav.tech/NewsAPI/top-headlines/category/technology/us.json"])%list).
Proof.
  intros category limit w tr. split; intros H.
  - rewrite getNews_run. cbn [snd].
    rewrite (fetched_category_valid category H). reflexivity.
  - rewrite !getNews_run. cbn [snd].
    rewrite (fetched_category_invalid category H). split; reflexivity.
Qed.

Lemma getNews_fetches_category_or_technology_witness :
  snd (getNews (Some "sports") (Some 5) (Sample.world [] Sample.five_articles) []) =
    [EFetch "https://saurav.tech/NewsAPI/top-headlines/category/sports/us.json"] /\
  snd (getNews (Some "sports2") (Some 5) (Sample.world [] Sample.five_articles) []) =
    [EFetch "https://saurav.tech/NewsAPI/top-headlines/category/technology/us.json"].
Proof.
  split.
  - apply (proj1 (getNews_fetches_category_or_technology
                    "sports" (Some 5) (Sample.world [] Sample.five_articles) [])).
    cbn. tauto.
  - apply (proj2 (getNews_fetches_category_or_technology
                    "sports2" (Some 5) (Sample.world [] Sample.five_articles) [])).
    cbn. intros H.
    repeat match goal with
           | H : _ \/ _ |- _ => destruct H as [H|H]
           end; try discriminate H; exact H.
Defined.

Lemma slice0_nonneg {A} (l : list A) (limit : Z) :
  0 <= limit -> JS.slice0 l limit = firstn (Z.to_nat limit) l.
Proof.
  intros Hpos. unfold JS.slice0.
  destruct (limit <? 0) eqn:Hneg; [apply Z.ltb_lt in Hneg; lia|].
  destruct (Z.le_gt_cases limit (Z.of_nat (List.length l))) as [Hle|Hgt].
  - rewrite Z.min_l by exact Hle. reflexivity.
  - rewrite Z.min_r by lia. rewrite Nat2Z.id.
    rewrite firstn_all. symmetry. apply firstn_all2. lia.
Qed.

Lemma len_firstn {A} (l : list A) (limit : Z) :
  0 <= limit -> len (firstn (Z.to_nat limit) l) = Z.min limit (len l).
Proof.
  intros Hpos. unfold len.
  destruct (Z.le_gt_cases limit (Z.of_nat (List.length l))) as [Hle|Hgt].
  - rewrite firstn_length_le by lia. lia.
  - rewrite firstn_all2 by lia. lia.
Qed.

Lemma getNews_success (category : option string) (limit : option Z) (w : World)
      (tr tr' : list event) (records : list NewsArticle.t) :
  getNews category limit w tr = (Ok records, tr') ->
  exists articles,
    reply_array "articles" (reply_to w tr (news_url (fetched_category category)))
      = Some articles /\
    Forall2 (fun a r => news_article a = Ok r)
            (JS.slice0 articles (default 10 limit)) records.
Proof.
  rewrite getNews_run. intros H. inversion H as [[Hr Htr]].
  apply reply_array_of_success in Hr;
    [|intros v Hv; apply array_slice_map_not_array; exact Hv].
  destruct Hr as [articles [Harts Hmap]]. exists articles. split; [exact Harts|].
  apply map_throwing_Forall2. exact Hmap.
Qed.

Lemma getNews_returns (category : option string) (limit : option Z) (w : World)
      (tr : list event) (articles : list value) :
  reply_array "articles" (reply_to w tr (news_url (fetched_category category)))
    = Some articles ->
  Forall (fun a => JS.is_nullish a = false) (JS.slice0 articles (default 10 limit)) ->
  exists records,
    getNews category limit w tr =
      (Ok records, (tr ++ [EFetch (news_url (fetched_category category))])%list).
Proof.
  intros Harts Hobj. rewrite getNews_run.
  rewrite (reply_array_Some _ _ _ _ Harts). cbn [array_slice_map].
  destruct (map_throwing_total news_article (JS.slice0 articles (default 10 limit)))
    as [records ->].
  - eapply Forall_impl; [|exact Hobj]. intros a. apply news_article_total.
  - exists records. reflexivity.
Qed.

(** C6, as the code has it. For a limit that is not negative and an answer
    of the headline upstream holding an array of articles, [getNews] returns
    whenever the articles it keeps, the first [min limit length] of them, are
    not null; and what it returns is the records of those articles, in
    upstream order, hence at most [limit] of them, however many the upstream
    returned. *)
Theorem getNews_truncates_to_limit :
  forall (category : option string) (limit : Z) (w : World) (tr : list event)
         (articles : list value),
    0 <= limit ->
    reply_array "articles" (reply_to w tr (news_url (fetched_category category)))
      = Some articles ->
    (Forall (fun a => JS.is_nullish a = false) (firstn (Z.to_nat limit) articles) ->
     exists records,
       getNews category (Some limit) w tr =
         (Ok records, (tr ++ [EFetch (news_url (fetched_category category))])%list)) /\
    (forall records tr',
        getNews category (Some limit) w tr = (Ok records, tr') ->
        Forall2 (fun a r => news_article a = Ok r)
                (firstn (Z.to_nat limit) articles) records /\
        len records = Z.min limit (len articles) /\
        len records <= limit).
Proof.
  intros category limit w tr articles Hpos Harts. split.
  - intros Hobj. apply (getNews_returns category (Some limit) w tr articles Harts).
    cbn [default]. rewrite slice0_nonneg by exact Hpos. exact Hobj.
  - intros records tr' Hrun.
    destruct (getNews_success _ _ _ _ _ _ Hrun) as [articles' [Harts' HF]].
    rewrite Harts in Harts'. inversion Harts'; subst articles'.
    cbn [default] in HF. rewrite slice0_nonneg in HF by exact Hpos.
    split; [exact HF|].
    assert (Hlen : len records = Z.min limit (len articles)).
    { rewrite <- (len_firstn articles limit Hpos). unfold len.
      f_equal. symmetry. eapply Forall2_length_eq. exact HF. }
    split; [exact Hlen|lia].
Qed.

(** Asked for 3 headlines of an upstream that holds 5, [getNews] returns 3. *)
Lemma getNews_truncates_to_limit_witness :
  exists records tr',
    getNews (Some "technology") (Some 3) (Sample.world [] Sample.five_articles) []
      = (Ok records, tr') /\
    len records = 3.
Proof.
  destruct (getNews_truncates_to_limit
              (Some "technology") 3 (Sample.world [] Sample.five_articles) []
              Sample.five_articles) as [Hreturns Hrecords].
  - lia.
  - reflexivity.
  - destruct Hreturns as [records Hrun]; [repeat constructor|].
    exists records. eexists. split; [exact Hrun|].
    destruct (Hrecords _ _ Hrun) as (_ & Hlen & _). exact Hlen.
Defined.

(** C6 as stated fails for an array with a null entry: asked for 2
    headlines of an upstream that answers with three entries of which the
    second is null, [getNews] rejects and returns no record, where the first
    [min(2, 3)] articles were promised. *)
Lemma getNews_null_article_counterexample :
  reply_array "articles"
    (reply_to (Sample.world [] [Sample.article "alpha"; VNull; Sample.article "gamma"]) []
       (news_url "technology"))
    = Some [Sample.article "alpha"; VNull; Sample.article "gamma"] /\
  fst (getNews (Some "technology") (Some 2)
         (Sample.world [] [Sample.article "alpha"; VNull; Sample.article "gamma"]) [])
    = Err TypeError.
Proof.
  split; reflexivity.
Qed.

(** ** Running computations *)

Lemma bind_success {A B} (m : M A) (k : A -> M B) (w : World) (tr tr' : list event) (b : B) :
  bind m k w tr = (Ok b, tr') ->
  exists a tr1, m w tr = (Ok a, tr1) /\ k a w tr1 = (Ok b, tr').
Proof.
  unfold bind. destruct (m w tr) as [[a|e] tr1]; intros H; [|discriminate].
  exists a, tr1. split; [reflexivity|exact H].
Qed.

Lemma promise_all2_success {A B} (a : M A) (b : M B) (w : World) (tr tr' : list event)
      (x : A) (y : B) :
  promise_all2 a b w tr = (Ok (x, y), tr') ->
  exists tr1, a w tr = (Ok x, tr1) /\ b w tr1 = (Ok y, tr').
Proof.
  unfold promise_all2.
  destruct (a w tr) as [ra tr1] eqn:Ha. destruct (b w tr1) as [rb tr2] eqn:Hb.
  destruct ra as [x'|e]; [|discriminate]. destruct rb as [y'|e]; [|discriminate].
  intros H. inversion H; subst. exists tr1. split; [reflexivity|exact Hb].
Qed.

Lemma promise_all_Forall {A} (P : A -> Prop) (ms : list (M A)) :
  (forall m, In m ms -> forall w tr a tr', m w tr = (Ok a, tr') -> P a) ->
  forall w tr rs tr', promise_all ms w tr = (Ok rs, tr') -> Forall P rs.
Proof.
  induction ms as [|m rest IH]; intros Hms w tr rs tr' H; cbn in H.
  - inversion H. constructor.
  - destruct (m w tr) as [r tr1] eqn:Hm.
    destruct (promise_all rest w tr1) as [rs' tr2] eqn:Hrest.
    destruct r as [x|e]; [|discriminate]. destruct rs' as [xs|e]; [|discriminate].
    inversion H; subst. constructor.
    + apply (Hms m (or_introl eq_refl) w tr x tr1 Hm).
    + apply (IH (fun m' Hin => Hms m' (or_intror Hin)) w tr1 xs tr' Hrest).
Qed.

Lemma fold_left_sum {A} (f : A -> Z) (l : list A) (acc : Z) :
  fold_left (fun sum r => sum + f r) l acc = acc + sum_Z (map f l).
Proof.
  revert acc. induction l as [|x rest IH]; intros acc; cbn [fold_left map].
  - unfold sum_Z. cbn [fold_right]. lia.
  - rewrite IH. unfold sum_Z. cbn [fold_right]. lia.
Qed.

(** ** What the computations append to the trace *)

Lemma extends_ret {A} (P : event -> Prop) (a : A) : extends_by P (ret a).
Proof.
  intros w tr. exists []. cbn. rewrite app_nil_r. split; [reflexivity|constructor].
Qed.

Lemma extends_lift {A} (P : event -> Prop) (r : result A) : extends_by P (lift r).
Proof.
  intros w tr. exists []. cbn. rewrite app_nil_r. split; [reflexivity|constructor].
Qed.

Lemma extends_now_iso (P : event -> Prop) : extends_by P now_iso.
Proof.
  intros w tr. exists []. cbn. rewrite app_nil_r. split; [reflexivity|constructor].
Qed.

Lemma extends_bind {A B} (P : event -> Prop) (m : M A) (k : A -> M B) :
  extends_by P m -> (forall a, extends_by P (k a)) -> extends_by P (bind m k).
Proof.
  intros Hm Hk w tr. unfold bind.
  destruct (Hm w tr) as [evs [Htr HP]].
  destruct (m w tr) as [[a|e] tr1]; cbn [snd] in *; subst tr1.
  - destruct (Hk a w (tr ++ evs)%list) as [evs' [Htr' HP']].
    exists (evs ++ evs')%list. rewrite Htr', app_assoc.
    split; [reflexivity|]. apply Forall_app. split; assumption.
  - exists evs. split; [reflexivity|exact HP].
Qed.

Lemma extends_promise_all2 {A B} (P : event -> Prop) (a : M A) (b : M B) :
  extends_by P a -> extends_by P b -> extends_by P (promise_all2 a b).
Proof.
  intros Ha Hb w tr. unfold promise_all2.
  destruct (Ha w tr) as [evs [Htr HP]].
  destruct (a w tr) as [ra tr1]; cbn [snd] in *; subst tr1.
  destruct (Hb w (tr ++ evs)%list) as [evs' [Htr' HP']].
  destruct (b w (tr ++ evs)%list) as [rb tr2]; cbn [snd] in *; subst tr2.
  exists (evs ++ evs')%list. rewrite app_assoc.
  split; [reflexivity|]. apply Forall_app. split; assumption.
Qed.

Lemma extends_promise_all {A} (P : event -> Prop) (ms : list (M A)) :
  Forall (extends_by P) ms -> extends_by P (promise_all ms).
Proof.
  induction 1 as [|m rest Hm _ IH]; intros w tr.
  - apply extends_ret.
  - cbn [promise_all].
    destruct (Hm w tr) as [evs [Htr HP]].
    destruct (m w tr) as [r tr1]; cbn [snd] in *; subst tr1.
    destruct (IH w (tr ++ evs)%list) as [evs' [Htr' HP']].
    destruct (promise_all rest w (tr ++ evs)%list) as [rs tr2]; cbn [snd] in *; subst tr2.
    exists (evs ++ evs')%list. rewrite app_assoc.
    split; [reflexivity|]. apply Forall_app. split; assumption.
Qed.

Lemma extends_fetchJSON (P : event -> Prop) (url : string) :
  P (EFetch url) -> extends_by P (fetchJSON url).
Proof.
  intros HP w tr. rewrite fetchJSON_run. exists [EFetch url].
  split; [reflexivity|]. constructor; [exact HP|constructor].
Qed.

Lemma hn_top_url_not_trends (limit : Z) : upstream_request (EFetch (hn_top_url limit)).
Proof.
  exists (hn_top_url limit). split; [reflexivity|].
  unfold hn_top_url, trends_url. cbn [append]. discriminate.
Qed.

Lemma hn_search_url_not_trends (query : string) (limit : Z) :
  upstream_request (EFetch (hn_search_url query limit)).
Proof.
  exists (hn_search_url query limit). split; [reflexivity|].
  unfold hn_search_url, trends_url. cbn [append]. discriminate.
Qed.

Lemma news_url_not_trends (cat : string) : upstream_request (EFetch (news_url cat)).
Proof.
  exists (news_url cat). split; [reflexivity|].
  unfold news_url, trends_url. cbn [append]. discriminate.
Qed.

Lemma extends_getHNTop (limit : option Z) : extends_by upstream_request (getHNTop limit).
Proof.
  unfold getHNTop. apply extends_bind.
  - apply extends_fetchJSON, hn_top_url_not_trends.
  - intros data. apply extends_lift.
Qed.

Lemma extends_searchHN (query : string) (limit : option Z) :
  extends_by upstream_request (searchHN query limit).
Proof.
  unfold searchHN. apply extends_bind.
  - apply extends_fetchJSON, hn_search_url_not_trends.
  - intros data. apply extends_lift.
Qed.

Lemma extends_getNews (category : option string) (limit : option Z) :
  extends_by upstream_request (getNews category limit).
Proof.
  unfold getNews. apply extends_bind.
  - apply extends_fetchJSON, news_url_not_trends.
  - intros data. apply extends_lift.
Qed.

(** ** The handlers *)

Create HintDb trace discriminated.
#[local] Hint Resolve extends_ret extends_lift extends_now_iso
  extends_getHNTop extends_searchHN extends_getNews : trace.

(** Follows a handler body: each [await] is a [bind], each join a
    [Promise.all]. *)
Ltac follow_trace :=
  repeat first
    [ solve [auto with trace]
    | apply extends_bind; [|intros ?]
    | apply extends_promise_all2 ].

Lemma handlers_only_request_upstreams (def : Entrypoint) :
  In def entrypoints ->
  forall ctx_input : Input def, extends_by upstream_request (handler def ctx_input).
Proof.
  unfold entrypoints, addEntrypoint. cbn [app].
  intros [<-|[<-|[<-|[<-|[<-|[<-|[]]]]]]] ctx_input; cbn [handler];
    try solve [follow_trace; match goal with p : _ * _ |- _ => destruct p end; follow_trace];
    try solve [follow_trace].
  apply extends_bind; [|intros results; follow_trace].
  apply extends_promise_all. apply Forall_forall. intros m Hin.
  apply in_map_iff in Hin. destruct Hin as [cat [<- _]]. follow_trace.
Qed.

Lemma getHNTop_sources (limit : option Z) (w : World) (tr tr' : list event)
      (stories : list HNStory.t) :
  getHNTop limit w tr = (Ok stories, tr') ->
  Forall (fun s => s = "hackernews") (map HNStory.source stories).
Proof.
  intros Hrun. destruct (getHNTop_success _ _ _ _ _ Hrun) as [hits [_ HF]].
  clear Hrun. induction HF as [|h s hits stories Hs _ IH]; cbn [map]; constructor.
  - eapply hn_story_source. exact Hs.
  - exact IH.
Qed.

Lemma searchHN_sources (query : string) (limit : option Z) (w : World) (tr tr' : list event)
      (results : list SearchResult.t) :
  searchHN query limit w tr = (Ok results, tr') ->
  Forall (fun s => s = "hackernews") (map SearchResult.source results).
Proof.
  intros Hrun. destruct (searchHN_success _ _ _ _ _ _ Hrun) as [hits [_ HF]].
  clear Hrun. induction HF as [|h r hits results Hr _ IH]; cbn [map]; constructor.
  - eapply search_result_source. exact Hr.
  - exact IH.
Qed.

Lemma getNews_sources (category : option string) (limit : option Z) (w : World)
      (tr tr' : list event) (records : list NewsArticle.t) :
  getNews category limit w tr = (Ok records, tr') ->
  Forall (fun s => s = "news") (map NewsArticle.source records).
Proof.
  intros Hrun. destruct (getNews_success _ _ _ _ _ _ Hrun) as [articles [_ HF]].
  clear Hrun. induction HF as [|a r kept records Hr _ IH]; cbn [map]; constructor.
  - eapply news_article_source. exact Hr.
  - exact IH.
Qed.

Lemma now_iso_run (w : World) (tr tr' : list event) (v : value) :
  now_iso w tr = (Ok v, tr') -> v = VStr (clock w) /\ tr' = tr.
Proof.
  unfold now_iso. intros H. inversion H. split; reflexivity.
Qed.

(** Taking a successful handler run apart, one [await] at a time. *)
Tactic Notation "await" hyp(H) "as" ident(a) ident(tr1) ident(Hm) :=
  apply bind_success in H; destruct H as (a & tr1 & Hm & H).

Ltac returned H := unfold ret in H; inversion H; subst; clear H.

Lemma overview_success (w : World) (tr tr' : list event) (env : Envelope) :
  handler overview tt w tr = (Ok env, tr') ->
  exists hnTop news tr1,
    getHNTop (Some 3) w tr = (Ok hnTop, tr1) /\
    getNews (Some "technology") (Some 3) w tr1 = (Ok news, tr') /\
    output env = OverviewOut {|
      Overview.summary := {|
        Overview.hn_stories := len hnTop;
        Overview.news_articles := len news;
        Overview.sources := ["hackernews"; "news"] |};
      Overview.sample := {|
        Overview.hn_top := JS.or_else (first_title HNStory.title hnTop) VNull;
        Overview.news_top := JS.or_else (first_title NewsArticle.title news) VNull |};
      Overview.fetchedAt := VStr (clock w);
      Overview.upgrade := "Use paid endpoints for full data with pagination and filtering" |}.
Proof.
  cbn [handler overview]. intros H.
  await H as fetched tr2 Hall. destruct fetched as [hnTop news].
  apply promise_all2_success in Hall. destruct Hall as (tr1 & Hhn & Hnews).
  await H as fetchedAt tr3 Hnow. apply now_iso_run in Hnow. destruct Hnow as [-> ->].
  returned H. exists hnTop, news, tr1. repeat split; assumption.
Qed.

Lemma all_signals_success (ctx_input : AllSignalsInput.t) (w : World) (tr tr' : list event)
      (env : Envelope) :
  handler all_signals ctx_input w tr = (Ok env, tr') ->
  exists hn news tr1,
    getHNTop (Some (AllSignalsInput.hnLimit ctx_input)) w tr = (Ok hn, tr1) /\
    getNews (Some (AllSignalsInput.newsCategory ctx_input))
            (Some (AllSignalsInput.newsLimit ctx_input)) w tr1 = (Ok news, tr') /\
    output env = AllSignalsOut {|
      AllSignals.hackernews := {|
        AllSignals.Hackernews.count := len hn;
        AllSignals.Hackernews.stories := hn |};
      AllSignals.news := {|
        AllSignals.News.category := AllSignalsInput.newsCategory ctx_input;
        AllSignals.News.count := len news;
        AllSignals.News.articles := news |};
      AllSignals.totals := {|
        AllSignals.Totals.sources := 2;
        AllSignals.Totals.items := len hn + len news |};
      AllSignals.fetchedAt := VStr (clock w) |}.
Proof.
  cbn [handler all_signals]. intros H.
  await H as fetched tr2 Hall. destruct fetched as [hn news].
  apply promise_all2_success in Hall. destruct Hall as (tr1 & Hhn & Hnews).
  await H as fetchedAt tr3 Hnow. apply now_iso_run in Hnow. destruct Hnow as [-> ->].
  returned H. exists hn, news, tr1. repeat split; assumption.
Qed.

Lemma news_multi_success (ctx_input : NewsMultiInput.t) (w : World) (tr tr' : list event)
      (env : Envelope) :
  handler news_multi ctx_input w tr = (Ok env, tr') ->
  exists results,
    Forall (fun r => Forall (fun s => s = "news")
                            (map NewsArticle.source (NewsMulti.articles r))) results /\
    output env = NewsMultiOut {|
      NewsMulti.categories := NewsMultiInput.categories ctx_input;
      NewsMulti.totalArticles :=
        fold_left (fun sum r => sum + len (NewsMulti.articles r)) results 0;
      NewsMulti.results := results;
      NewsMulti.fetchedAt := VStr (clock w) |}.
Proof.
  cbn [handler news_multi]. intros H.
  await H as results tr1 Hall.
  await H as fetchedAt tr2 Hnow. apply now_iso_run in Hnow. destruct Hnow as [-> ->].
  returned H. exists results. split; [|reflexivity].
  eapply promise_all_Forall; [|exact Hall].
  intros m Hin w0 tr0 r tr0' Hrun.
  apply in_map_iff in Hin. destruct Hin as [cat [<- _]].
  await Hrun as articles tr3 Hnews. returned Hrun. cbn [NewsMulti.articles].
  eapply getNews_sources. exact Hnews.
Qed.

(** C7. In a successful [news-multi] response [totalArticles] is the sum,
    over the per-category results of that response, of the length of the
    article list; in a successful [all-signals] response [totals.items] is
    the length of the story list plus the length of the article list, and
    [totals.sources] is 2. *)
Theorem totals_are_sums_of_lengths :
  forall (multi_input : NewsMultiInput.t) (all_input : AllSignalsInput.t)
         (w : World) (tr : list event),
    (forall env tr',
        handler news_multi multi_input w tr = (Ok env, tr') ->
        exists o,
          output env = NewsMultiOut o /\
          NewsMulti.totalArticles o =
            sum_Z (map (fun r => len (NewsMulti.articles r)) (NewsMulti.results o))) /\
    (forall env tr',
        handler all_signals all_input w tr = (Ok env, tr') ->
        exists o,
          output env = AllSignalsOut o /\
          AllSignals.Totals.items (AllSignals.totals o) =
            len (AllSignals.Hackernews.stories (AllSignals.hackernews o))
            + len (AllSignals.News.articles (AllSignals.news o)) /\
          AllSignals.Totals.sources (AllSignals.totals o) = 2).
Proof.
  intros multi_input all_input w tr. split; intros env tr' Hrun.
  - destruct (news_multi_success _ _ _ _ _ Hrun) as (results & _ & Hout).
    eexists. split; [exact Hout|].
    cbn [NewsMulti.totalArticles NewsMulti.results].
    rewrite fold_left_sum. lia.
  - destruct (all_signals_success _ _ _ _ _ Hrun) as (hn & news & tr1 & _ & _ & Hout).
    eexists. split; [exact Hout|]. split; reflexivity.
Qed.

(** Two categories at 2 headlines each and 4 stories: totals 4 and 4 + 3. *)
Lemma totals_are_sums_of_lengths_witness :
  (exists o, NewsMulti.totalArticles o = 4 /\
             map (fun r => len (NewsMulti.articles r)) (NewsMulti.results o) = [2; 2]) /\
  (exists o, AllSignals.Totals.items (AllSignals.totals o) = 7 /\
             len (AllSignals.Hackernews.stories (AllSignals.hackernews o)) = 4 /\
             len (AllSignals.News.articles (AllSignals.news o)) = 3).
Proof.
  destruct (totals_are_sums_of_lengths
              {| NewsMultiInput.categories := ["technology"; "science"];
                 NewsMultiInput.limitPerCategory := 2 |}
              {| AllSignalsInput.hnLimit := 15;
                 AllSignalsInput.newsCategory := "technology";
                 AllSignalsInput.newsLimit := 3 |}
              (Sample.world Sample.four_hits Sample.five_articles) [])
    as [Hmulti Hall].
  split.
  - destruct (Hmulti _ _ eq_refl) as [o [Hout Htotal]].
    exists o. inversion Hout; subst o. split; reflexivity.
  - destruct (Hall _ _ eq_refl) as [o [Hout _]].
    exists o. inversion Hout; subst o. repeat split; reflexivity.
Defined.

(** C3, as the code has it. A successful [overview] counts min(3, n)
    headline items, where n is the number of articles the headline upstream
    returned, and as many discussion items as the discussion upstream
    returned to the request for 3 hits: that count is not capped on the
    client side. Its [fetchedAt] is the clock reading, a string, never null. *)
Theorem overview_counts :
  forall (w : World) (tr tr' : list event) (env : Envelope),
    handler overview tt w tr = (Ok env, tr') ->
    exists o hits articles,
      output env = OverviewOut o /\
      reply_array "hits" (reply_to w tr (hn_top_url 3)) = Some hits /\
      reply_array "articles"
        (reply_to w (tr ++ [EFetch (hn_top_url 3)])%list (news_url "technology"))
        = Some articles /\
      Overview.hn_stories (Overview.summary o) = len hits /\
      Overview.news_articles (Overview.summary o) = Z.min 3 (len articles) /\
      Overview.fetchedAt o = VStr (clock w) /\
      Overview.fetchedAt o <> VNull.
Proof.
  intros w tr tr' env Hrun.
  destruct (overview_success _ _ _ _ Hrun) as (hnTop & news & tr1 & Hhn & Hnews & Hout).
  assert (Htr1 : tr1 = (tr ++ [EFetch (hn_top_url 3)])%list).
  { rewrite getHNTop_run in Hhn. inversion Hhn. reflexivity. }
  subst tr1.
  destruct (getHNTop_success _ _ _ _ _ Hhn) as [hits [Hhits HFhn]].
  destruct (getNews_success _ _ _ _ _ _ Hnews) as [articles [Harts HFnews]].
  cbn [default] in Hhits, HFnews.
  change (fetched_category (Some "technology")) with "technology" in Harts.
  rewrite slice0_nonneg in HFnews by lia.
  eexists. exists hits, articles.
  split; [exact Hout|]. split; [exact Hhits|]. split; [exact Harts|].
  cbn [Overview.summary Overview.hn_stories Overview.news_articles Overview.fetchedAt].
  split; [|split; [|split; [reflexivity|discriminate]]].
  - unfold len. f_equal. symmetry. eapply Forall2_length_eq. exact HFhn.
  - rewrite <- (len_firstn articles 3) by lia. unfold len.
    f_equal. symmetry. eapply Forall2_length_eq. exact HFnews.
Qed.

Lemma overview_counts_witness :
  exists o,
    Overview.hn_stories (Overview.summary o) = 4 /\
    Overview.news_articles (Overview.summary o) = 3 /\
    Overview.fetchedAt o = VStr "2024-05-01T12:00:00.000Z".
Proof.
  destruct (overview_counts (Sample.world Sample.four_hits Sample.five_articles) []
                            _ _ eq_refl)
    as (o & hits & articles & Hout & Hhits & Harts & Hhn & Hnews & Hat & _).
  exists o. inversion Hhits; subst hits. inversion Harts; subst articles.
  split; [exact Hhn|]. split; [exact Hnews|exact Hat].
Defined.

(** C3 as stated fails: when the discussion upstream answers the request for
    3 hits with 4, [overview] counts 4 discussion items. *)
Lemma overview_four_discussion_items_counterexample :
  exists env o tr',
    handler overview tt (Sample.world Sample.four_hits Sample.five_articles) []
      = (Ok env, tr') /\
    output env = OverviewOut o /\
    Overview.hn_stories (Overview.summary o) = 4 /\
    ~ (Overview.hn_stories (Overview.summary o) <= 3).
Proof.
  eexists. eexists. eexists. split; [reflexivity|]. split; [reflexivity|].
  split; [reflexivity|]. cbn. lia.
Qed.

(** C10. No handler of the registry requests the trends endpoint, which is
    the first thing [getXTrends] does when invoked; and in every successful
    response the Signal Records are tagged [hackernews] or [news], never
    [x]. *)
Theorem handlers_never_use_trends :
  forall (def : Entrypoint),
    In def entrypoints ->
    forall (ctx_input : Input def) (w : World) (tr : list event),
      (exists evs,
          snd (handler def ctx_input w tr) = (tr ++ evs)%list /\
          ~ In (EFetch trends_url) evs) /\
      (forall env,
          fst (handler def ctx_input w tr) = Ok env ->
          Forall (fun s => s = "hackernews" \/ s = "news") (signal_sources (output env)) /\
          ~ In "x" (signal_sources (output env))).
Proof.
  intros def Hdef ctx_input w tr. split.
  - destruct (handlers_only_request_upstreams def Hdef ctx_input w tr) as [evs [Htr HP]].
    exists evs. split; [exact Htr|]. intros Hin.
    rewrite Forall_forall in HP. destruct (HP _ Hin) as [url [Heq Hneq]].
    inversion Heq. congruence.
  - intros env Hok.
    assert (Htags : Forall (fun s => s = "hackernews" \/ s = "news")
                           (signal_sources (output env))).
    { destruct (handler def ctx_input w tr) as [r tr'] eqn:Hrun. cbn [fst] in Hok. subst r.
      revert ctx_input Hrun. unfold entrypoints, addEntrypoint in Hdef. cbn [app] in Hdef.
      destruct Hdef as [<-|[<-|[<-|[<-|[<-|[<-|[]]]]]]]; intros ctx_input Hrun.
      - destruct ctx_input.
        destruct (overview_success _ _ _ _ Hrun) as (? & ? & ? & _ & _ & ->).
        constructor.
      - cbn [handler hn_top] in Hrun.
        await Hrun as stories tr1 Hhn.
        await Hrun as fetchedAt tr2 Hnow. returned Hrun.
        cbn [output signal_sources HnTop.stories].
        eapply Forall_impl; [|eapply getHNTop_sources; exact Hhn].
        intros s ->. left. reflexivity.
      - cbn [handler news] in Hrun.
        await Hrun as articles tr1 Hnews.
        await Hrun as fetchedAt tr2 Hnow. returned Hrun.
        cbn [output signal_sources News.articles].
        eapply Forall_impl; [|eapply getNews_sources; exact Hnews].
        intros s ->. right. reflexivity.
      - cbn [handler search] in Hrun.
        await Hrun as results tr1 Hsearch.
        await Hrun as fetchedAt tr2 Hnow. returned Hrun.
        cbn [output signal_sources Search.results].
        eapply Forall_impl; [|eapply searchHN_sources; exact Hsearch].
        intros s ->. left. reflexivity.
      - destruct (news_multi_success _ _ _ _ _ Hrun) as (results & Hres & ->).
        cbn [signal_sources NewsMulti.results].
        induction Hres as [|r results Hr _ IH]; cbn [flat_map]; [constructor|].
        apply Forall_app. split; [|exact IH].
        eapply Forall_impl; [|exact Hr]. intros s ->. right. reflexivity.
      - destruct (all_signals_success _ _ _ _ _ Hrun) as (hn & nw & tr1 & Hhn & Hnews & ->).
        cbn [signal_sources AllSignals.hackernews AllSignals.news
             AllSignals.Hackernews.stories AllSignals.News.articles].
        apply Forall_app. split.
        + eapply Forall_impl; [|eapply getHNTop_sources; exact Hhn].
          intros s ->. left. reflexivity.
        + eapply Forall_impl; [|eapply getNews_sources; exact Hnews].
          intros s ->. right. reflexivity. }
    split; [exact Htags|]. intros Hin.
    rewrite Forall_forall in Htags. destruct (Htags _ Hin) as [H|H]; discriminate H.
Qed.

Lemma handlers_never_use_trends_witness :
  ~ In (EFetch trends_url)
       (snd (handler all_signals
               {| AllSignalsInput.hnLimit := 15;
                  AllSignalsInput.newsCategory := "technology";
                  AllSignalsInput.newsLimit := 10 |}
               (Sample.world Sample.four_hits Sample.five_articles) [])) /\
  (exists env,
      fst (handler all_signals
             {| AllSignalsInput.hnLimit := 15;
                AllSignalsInput.newsCategory := "technology";
                AllSignalsInput.newsLimit := 10 |}
             (Sample.world Sample.four_hits Sample.five_articles) []) = Ok env /\
      List.length (signal_sources (output env)) = 9%nat /\
      ~ In "x" (signal_sources (output env))).
Proof.
  assert (Hdef : In all_signals entrypoints).
  { unfold entrypoints, addEntrypoint. cbn [app]. do 5 right. left. reflexivity. }
  destruct (handlers_never_use_trends all_signals Hdef
              {| AllSignalsInput.hnLimit := 15;
                 AllSignalsInput.newsCategory := "technology";
                 AllSignalsInput.newsLimit := 10 |}
              (Sample.world Sample.four_hits Sample.five_articles) [])
    as [[evs [Htr Hno]] Hsrc].
  split.
  - rewrite Htr. exact Hno.
  - eexists. split; [reflexivity|]. split; [reflexivity|].
    apply (Hsrc _ eq_refl).
Defined.

(** ** The trend adapter *)

(** On a network failure and on a status outside 200..299 the fallback
    records are returned. *)
Lemma getXTrends_falls_back (w : World) (tr : list event) :
  (reply_to w tr trends_url = Unreachable \/
   exists r, reply_to w tr trends_url = Answered r /\ ok r = false) ->
  getXTrends w tr = (Ok trends_fallback, (tr ++ [EFetch trends_url])%list).
Proof.
  unfold reply_to, getXTrends, bind, try_catch, fetch, ret.
  intros [H|[r [H Hok]]]; rewrite H; [reflexivity|].
  rewrite Hok. reflexivity.
Qed.

(** On a success status the adapter returns whatever JSON the body holds. *)
Lemma getXTrends_passes_body (w : World) (tr : list event) (r : Response) (v : value) :
  reply_to w tr trends_url = Answered r -> ok r = true -> body r = Some v ->
  getXTrends w tr = (Ok v, (tr ++ [EFetch trends_url])%list).
Proof.
  unfold reply_to, getXTrends, bind, try_catch, fetch, ret, json.
  intros H Hok Hbody. rewrite H, Hok, Hbody. reflexivity.
Qed.

(** C2, where the code departs from it. When the trends upstream answers
    with a success status and a body that is not JSON, [getXTrends] rejects
    with the parse error instead of returning the fallback records: the
    promise of [response.json()] is returned from inside the [try] block
    without being awaited there, so its rejection is not caught. *)
Theorem getXTrends_rejects_on_malformed_body :
  forall (w : World) (tr : list event) (r : Response),
    reply_to w tr trends_url = Answered r ->
    ok r = true ->
    body r = None ->
    getXTrends w tr = (Err SyntaxError, (tr ++ [EFetch trends_url])%list).
Proof.
  unfold reply_to, getXTrends, bind, try_catch, fetch, ret, json, throw.
  intros w tr r H Hok Hbody. rewrite H, Hok, Hbody. reflexivity.
Qed.

Lemma getXTrends_rejects_on_malformed_body_witness :
  getXTrends Sample.html_world [] = (Err SyntaxError, [EFetch trends_url]) /\
  fst (getXTrends Sample.html_world []) <> Ok trends_fallback.
Proof.
  split.
  - apply (getXTrends_rejects_on_malformed_body
             Sample.html_world [] {| status := 200; body := None |});
      reflexivity.
  - rewrite (getXTrends_rejects_on_malformed_body
               Sample.html_world [] {| status := 200; body := None |});
      [discriminate|reflexivity|reflexivity|reflexivity].
Defined.

(** ** Prices *)

Lemma bills_app (tr evs : list event) : bills (tr ++ evs) = (bills tr ++ bills evs)%list.
Proof.
  unfold bills. apply flat_map_app.
Qed.

Lemma bills_upstream_requests (evs : list event) :
  Forall upstream_request evs -> bills evs = [].
Proof.
  induction 1 as [|e evs [url [-> _]] _ IH]; [reflexivity|exact IH].
Qed.

Lemma find_entrypoint_registered (k : string) (def : Entrypoint) :
  find_entrypoint k = Some def -> In def entrypoints /\ key def = k.
Proof.
  unfold find_entrypoint. intros H. apply find_some in H.
  destruct H as [Hin Hkey]. apply String.eqb_eq in Hkey. split; assumption.
Qed.

(** Every call of a registered key reports one price, the declared one. *)
Lemma dispatch_bills (k : string) (def : Entrypoint) :
  find_entrypoint k = Some def ->
  forall (rawInput : value) (w : World) (tr : list event),
    bills (snd (dispatch k rawInput w tr)) = (bills tr ++ [(k, amount (price def))])%list.
Proof.
  intros Hfind rawInput w tr.
  destruct (find_entrypoint_registered k def Hfind) as [Hin _].
  unfold dispatch. rewrite Hfind.
  destruct (input def "input" rawInput) as [validated|e].
  - destruct (handlers_only_request_upstreams def Hin validated w (tr ++ [EInvoke k])%list)
      as [evs [Htr HP]].
    destruct (handler def validated w (tr ++ [EInvoke k])%list) as [r tr'].
    cbn [snd] in *. subst tr'.
    rewrite !bills_app, (bills_upstream_requests evs HP). cbn [bills flat_map app].
    rewrite !app_nil_r. reflexivity.
  - cbn [snd]. rewrite bills_app. reflexivity.
Qed.

(** An input the schema rejects never reaches the handler: the call fails
    with the issue, nothing is requested, and the price is still reported. *)
Lemma dispatch_rejected_input (k : string) (def : Entrypoint) (rawInput : value)
      (e : error) (w : World) (tr : list event) :
  find_entrypoint k = Some def ->
  input def "input" rawInput = Err e ->
  dispatch k rawInput w tr = (Err e, (tr ++ [EBill k (amount (price def))])%list).
Proof.
  intros Hfind Hin. unfold dispatch. rewrite Hfind, Hin. reflexivity.
Qed.

(** An input the schema accepts is handed to the handler. *)
Lemma dispatch_accepted_input (k : string) (def : Entrypoint) (rawInput : value)
      (validated : Input def) (w : World) (tr : list event) :
  find_entrypoint k = Some def ->
  input def "input" rawInput = Ok validated ->
  dispatch k rawInput w tr =
    (fst (handler def validated w (tr ++ [EInvoke k])%list),
     (snd (handler def validated w (tr ++ [EInvoke k])%list)
        ++ [EBill k (amount (price def))])%list).
Proof.
  intros Hfind Hin. unfold dispatch. rewrite Hfind, Hin.
  destruct (handler def validated w (tr ++ [EInvoke k])%list). reflexivity.
Qed.

Lemma dispatch_unknown_key (k : string) (rawInput : value) (w : World) (tr : list event) :
  find_entrypoint k = None ->
  dispatch k rawInput w tr = (Err NotFoundError, tr).
Proof.
  intros Hfind. unfold dispatch. rewrite Hfind. reflexivity.
Qed.

(** C1. Each key of the table is registered with the price the table
    declares, and whatever the raw input and whatever the upstreams answer, a
    call of that key reports exactly that price, once. *)
Theorem price_is_the_declared_table_value :
  forall (k : string) (v : Z),
    In (k, v) [("overview", 0); ("hn-top", 1000); ("news", 1000);
               ("search", 2000); ("news-multi", 2000); ("all-signals", 3000)] ->
    (exists def, find_entrypoint k = Some def /\ key def = k /\ price def = {| amount := v |}) /\
    (forall (rawInput : value) (w : World) (tr : list event),
        bills (snd (dispatch k rawInput w tr)) = (bills tr ++ [(k, v)])%list).
Proof.
  intros k v Hin.
  assert (Hdef : exists def, find_entrypoint k = Some def /\ key def = k /\
                             price def = {| amount := v |}).
  { cbn [In] in Hin.
    destruct Hin as [H|[H|[H|[H|[H|[H|[]]]]]]]; inversion H; subst k v;
      eexists; (split; [reflexivity|split; reflexivity]). }
  split; [exact Hdef|].
  destruct Hdef as (def & Hfind & _ & Hprice).
  intros rawInput w tr. rewrite (dispatch_bills k def Hfind), Hprice. reflexivity.
Qed.

(** [all-signals] reports 3000 also when both upstreams return no item. *)
Lemma price_is_the_declared_table_value_witness :
  (exists env o,
      fst (dispatch "all-signals" (VObj []) (Sample.world [] []) []) = Ok env /\
      output env = AllSignalsOut o /\
      AllSignals.Totals.items (AllSignals.totals o) = 0) /\
  bills (snd (dispatch "all-signals" (VObj []) (Sample.world [] []) []))
    = [("all-signals", 3000)].
Proof.
  split.
  - eexists. eexists. split; [reflexivity|]. split; reflexivity.
  - apply (proj2 (price_is_the_declared_table_value "all-signals" 3000
                    ltac:(cbn; tauto))).
Defined.

(** ** Input validation of [news-multi] *)

Lemma enum_accepts (values : list string) (f : string) (v : value) (s : string) :
  Zod.enum values f v = Ok s <-> v = VStr s /\ In s values.
Proof.
  unfold Zod.enum, Zod.issue. split.
  - destruct v as [| | | |s'| |]; try discriminate.
    destruct (JS.includes values s') eqn:Hinc; [|discriminate].
    intros H. inversion H; subst s'. split; [reflexivity|apply includes_In; exact Hinc].
  - intros [-> Hin]. apply includes_In in Hin. rewrite Hin. reflexivity.
Qed.

Lemma enum_issue (values : list string) (f : string) (v : value) (e : error) :
  Zod.enum values f v = Err e -> exists rule, e = ValidationError f rule.
Proof.
  unfold Zod.enum, Zod.issue.
  destruct v as [| | | |s| |]; try (intros H; inversion H; eauto; fail).
  destruct (JS.includes values s); intros H; inversion H. eauto.
Qed.

Lemma elements_enum_sound (values : list string) (f : string) (vs : list value)
      (l : list string) :
  Zod.elements (Zod.enum values) f vs = Ok l ->
  map VStr l = vs /\ Forall (fun s => In s values) l.
Proof.
  revert l. induction vs as [|v rest IH]; intros l H; cbn [Zod.elements] in H.
  - inversion H. split; [reflexivity|constructor].
  - destruct (Zod.enum values f v) as [s|e] eqn:Hv; cbn [rbind] in H; [|discriminate].
    destruct (Zod.elements (Zod.enum values) f rest) as [l'|e]; cbn [rbind] in H;
      [|discriminate].
    inversion H; subst l. destruct (IH l' eq_refl) as [Hmap Hall].
    apply enum_accepts in Hv. destruct Hv as [-> Hin].
    cbn [map]. rewrite Hmap. split; [reflexivity|].
    constructor; [exact Hin|exact Hall].
Qed.

Lemma elements_enum_complete (values : list string) (f : string) (l : list string) :
  Forall (fun s => In s values) l ->
  Zod.elements (Zod.enum values) f (map VStr l) = Ok l.
Proof.
  induction 1 as [|s l Hs _ IH]; cbn [map Zod.elements]; [reflexivity|].
  rewrite (proj2 (enum_accepts values f (VStr s) s) (conj eq_refl Hs)).
  cbn [rbind]. rewrite IH. reflexivity.
Qed.

Lemma elements_enum_issue (values : list string) (f : string) (vs : list value) (e : error) :
  Zod.elements (Zod.enum values) f vs = Err e -> exists rule, e = ValidationError f rule.
Proof.
  induction vs as [|v rest IH]; intros H; cbn [Zod.elements] in H; [discriminate|].
  destruct (Zod.enum values f v) as [s|e'] eqn:Hv; cbn [rbind] in H.
  - destruct (Zod.elements (Zod.enum values) f rest) as [l'|e'']; cbn [rbind] in H;
      [discriminate|].
    inversion H; subst e''. apply IH. reflexivity.
  - inversion H; subst e'. eapply enum_issue. exact Hv.
Qed.

Lemma categories_field (props : list (string * value)) (cats : list string) :
  Zod.field "categories" (Zod.array_max (Zod.array_min (Zod.array category_enum) 1) 4)
            (VObj props) = Ok cats
  <-> (JS.assoc "categories" props = VArr (map VStr cats) /\
       (1 <= List.length cats <= 4)%nat /\
       Forall (fun c => In c validCategories) cats).
Proof.
  unfold Zod.field. cbn [JS.get_opt].
  unfold Zod.array_max, Zod.array_min, Zod.array, category_enum, Zod.issue.
  split.
  - destruct (JS.assoc "categories" props) as [| | | | |vs|]; try discriminate.
    destruct (4 <? List.length vs)%nat eqn:Hhi; [discriminate|].
    destruct (List.length vs <? 1)%nat eqn:Hlo; [discriminate|].
    intros Hel. apply Nat.ltb_ge in Hlo, Hhi.
    apply elements_enum_sound in Hel. destruct Hel as [Hmap Hall].
    subst vs. rewrite length_map in Hlo, Hhi.
    split; [reflexivity|]. split; [lia|exact Hall].
  - intros (-> & Hlen & Hall). rewrite length_map.
    destruct (4 <? List.length cats)%nat eqn:Hhi; [apply Nat.ltb_lt in Hhi; lia|].
    destruct (List.length cats <? 1)%nat eqn:Hlo; [apply Nat.ltb_lt in Hlo; lia|].
    apply elements_enum_complete. exact Hall.
Qed.

Lemma categories_field_issue (props : list (string * value)) (e : error) :
  Zod.field "categories" (Zod.array_max (Zod.array_min (Zod.array category_enum) 1) 4)
            (VObj props) = Err e ->
  exists rule, e = ValidationError "categories" rule.
Proof.
  unfold Zod.field. cbn [JS.get_opt].
  unfold Zod.array_max, Zod.array_min, Zod.array, category_enum, Zod.issue.
  destruct (JS.assoc "categories" props) as [| | | | |vs|];
    try (intros H; inversion H; eauto; fail).
  destruct (4 <? List.length vs)%nat; [intros H; inversion H; eauto|].
  destruct (List.length vs <? 1)%nat; [intros H; inversion H; eauto|].
  apply elements_enum_issue.
Qed.

Lemma limitPerCategory_accepted (props : list (string * value)) :
  (JS.assoc "limitPerCategory" props = VUndefined \/
   exists n, JS.assoc "limitPerCategory" props = VNum n /\ 1 <= n <= 10) ->
  exists n,
    Zod.field "limitPerCategory"
      (Zod.default (Zod.optional (Zod.number_max (Zod.number_min Zod.number 1) 10)) 5)
      (VObj props) = Ok n.
Proof.
  unfold Zod.field. cbn [JS.get_opt].
  intros [->|[n [-> Hn]]]; [exists 5; reflexivity|].
  exists n. unfold Zod.default, Zod.optional, Zod.number_max, Zod.number_min, Zod.number.
  cbn [rbind].
  destruct (n <? 1) eqn:Hlo; [apply Z.ltb_lt in Hlo; lia|]. cbn [rbind].
  destruct (10 <? n) eqn:Hhi; [apply Z.ltb_lt in Hhi; lia|]. reflexivity.
Qed.

(** C4, as the code has it. The limit being in order, the schema of
    [news-multi] accepts an input exactly when its [categories] is an array
    of 1 to 4 values of the enumeration; it does not ask the values to be
    distinct, and the validated categories are the given ones, repetitions
    included. Any other input, be its [categories] missing, null, not an
    array, too short, too long or holding another value, is rejected with a
    [ValidationError] naming that field. *)
Theorem news_multi_accepts_one_to_four_enum_values :
  forall (props : list (string * value)),
    (JS.assoc "limitPerCategory" props = VUndefined \/
     exists n, JS.assoc "limitPerCategory" props = VNum n /\ 1 <= n <= 10) ->
    (forall cats : list string,
        (exists validated,
            input news_multi "input" (VObj props) = Ok validated /\
            NewsMultiInput.categories validated = cats)
        <->
        (JS.assoc "categories" props = VArr (map VStr cats) /\
         (1 <= List.length cats <= 4)%nat /\
         Forall (fun c => In c ["business"; "entertainment"; "general"; "health";
                                "science"; "sports"; "technology"]) cats)) /\
    ((forall cats : list string,
         ~ (JS.assoc "categories" props = VArr (map VStr cats) /\
            (1 <= List.length cats <= 4)%nat /\
            Forall (fun c => In c ["business"; "entertainment"; "general"; "health";
                                   "science"; "sports"; "technology"]) cats)) ->
     exists rule,
       input news_multi "input" (VObj props) = Err (ValidationError "categories" rule)).
Proof.
  intros props Hlimit.
  destruct (limitPerCategory_accepted props Hlimit) as [n Hn].
  cbn [input news_multi Zod.object]. rewrite Hn.
  destruct (Zod.field "categories" _ (VObj props)) as [cs|e] eqn:Hf; cbn [rbind].
  - apply categories_field in Hf. split.
    + intros cats. split.
      * intros [validated [Hv Hc]]. inversion Hv; subst validated.
        cbn [NewsMultiInput.categories] in Hc. subst cs. exact Hf.
      * intros (Hassoc & Hlen & Hall). eexists. split; [reflexivity|].
        cbn [NewsMultiInput.categories].
        destruct Hf as (Hassoc' & _). rewrite Hassoc in Hassoc'.
        inversion Hassoc' as [Hmap]. clear -Hmap.
        revert cs Hmap. induction cats as [|c cats IH]; intros [|c' cs] Hmap;
          cbn [map] in Hmap; try discriminate Hmap; [reflexivity|].
        inversion Hmap; subst c'. f_equal. apply IH. assumption.
    + intros Hnone. exfalso. exact (Hnone cs Hf).
  - destruct (categories_field_issue props e Hf) as [rule ->]. split.
    + intros cats. split.
      * intros [validated [Hv _]]. discriminate Hv.
      * intros Hok. apply categories_field in Hok. rewrite Hok in Hf. discriminate Hf.
    + intros _. exists rule. reflexivity.
Qed.

Lemma news_multi_accepts_one_to_four_enum_values_witness :
  (exists validated,
      input news_multi "input"
        (VObj [("categories", VArr [VStr "science"; VStr "health"; VStr "science"]);
               ("limitPerCategory", VNum 2)]) = Ok validated /\
      NewsMultiInput.categories validated = ["science"; "health"; "science"]) /\
  (exists rule,
      input news_multi "input" (VObj [("categories", VStr "science")])
        = Err (ValidationError "categories" rule)).
Proof.
  split.
  - destruct (news_multi_accepts_one_to_four_enum_values
                [("categories", VArr [VStr "science"; VStr "health"; VStr "science"]);
                 ("limitPerCategory", VNum 2)]) as [Hiff _].
    { right. exists 2. split; [reflexivity|lia]. }
    apply (proj2 (Hiff ["science"; "health"; "science"])).
    split; [reflexivity|]. split; [cbn; lia|].
    repeat constructor; cbn; tauto.
  - destruct (news_multi_accepts_one_to_four_enum_values
                [("categories", VStr "science")]) as [_ Hrej].
    { left. reflexivity. }
    apply Hrej. intros cats (Hassoc & _). discriminate Hassoc.
Defined.

(** C4 as stated fails: an input whose categories repeat a value passes
    validation, so the runtime goes on to invoke the handler, which requests
    the repeated category once per occurrence. *)
Lemma news_multi_accepts_duplicate_categories_counterexample :
  (exists validated,
      input news_multi "input"
        (VObj [("categories", VArr [VStr "technology"; VStr "technology"])]) = Ok validated /\
      NewsMultiInput.categories validated = ["technology"; "technology"] /\
      ~ NoDup (NewsMultiInput.categories validated)) /\
  (forall e,
      input news_multi "input"
        (VObj [("categories", VArr [VStr "technology"; VStr "technology"])]) <> Err e).
Proof.
  split.
  - eexists. split; [reflexivity|]. split; [reflexivity|].
    cbn. intros H. inversion H as [|x l Hnotin _]. apply Hnotin. left. reflexivity.
  - intros e H. discriminate H.
Qed.

(** * Further properties of the adapters and handlers *)

(** ** Failures of the upstreams *)

Lemma fetched_json_failure (rp : reply) (e : error) :
  upstream_failure rp e -> fetched_json rp = Err e.
Proof.
  intros H. destruct H as [|r Hok|r Hok Hbody]; cbn [fetched_json].
  - reflexivity.
  - rewrite Hok. reflexivity.
  - rewrite Hok, Hbody. reflexivity.
Qed.

(** [fetchJSON] and the three adapters built on it have no fallback: a
    network failure, a status outside 200..299 and a body that is not JSON
    each make the call reject, with [NetworkError], [ApiError status] and
    [SyntaxError] respectively, after the one request has been issued. *)
Theorem adapters_propagate_upstream_failure :
  forall (url query : string) (category : option string) (limit : option Z)
         (w : World) (tr : list event) (e : error),
    (upstream_failure (reply_to w tr url) e ->
     fetchJSON url w tr = (Err e, (tr ++ [EFetch url])%list)) /\
    (upstream_failure (reply_to w tr (hn_top_url (default 10 limit))) e ->
     getHNTop limit w tr = (Err e, (tr ++ [EFetch (hn_top_url (default 10 limit))])%list)) /\
    (upstream_failure (reply_to w tr (hn_search_url query (default 10 limit))) e ->
     searchHN query limit w tr =
       (Err e, (tr ++ [EFetch (hn_search_url query (default 10 limit))])%list)) /\
    (upstream_failure (reply_to w tr (news_url (fetched_category category))) e ->
     getNews category limit w tr =
       (Err e, (tr ++ [EFetch (news_url (fetched_category category))])%list)).
Proof.
  intros url query category limit w tr e.
  repeat split; intros H; apply fetched_json_failure in H.
  - rewrite fetchJSON_run, H. reflexivity.
  - rewrite getHNTop_run, H. reflexivity.
  - rewrite searchHN_run, H. reflexivity.
  - rewrite getNews_run, H. reflexivity.
Qed.

Lemma adapters_propagate_upstream_failure_witness :
  fst (getHNTop (Some 20) Sample.down_world []) = Err (ApiError 503) /\
  fst (getNews (Some "science") (Some 5) Sample.html_world []) = Err SyntaxError.
Proof.
  split.
  - rewrite (proj1 (proj2 (adapters_propagate_upstream_failure
                             "" "" None (Some 20) Sample.down_world []
                             (ApiError 503)))
               (failure_status {| status := 503; body := None |} eq_refl)).
    reflexivity.
  - rewrite (proj2 (proj2 (proj2 (adapters_propagate_upstream_failure
                                    "" "" (Some "science") (Some 5) Sample.html_world []
                                    SyntaxError)))
               (failure_body {| status := 200; body := None |} eq_refl eq_refl)).
    reflexivity.
Defined.

Lemma no_array_rejected {A} (field : string) (rp : reply) (data : value)
      (k : value -> result A) :
  fetched_json rp = Ok data ->
  (forall l, JS.get data field <> Ok (VArr l)) ->
  (forall v, (forall l, v <> VArr l) -> k v = Err TypeError) ->
  (d <- fetched_json rp ;; arr <- JS.get d field ;; k arr)%res = Err TypeError.
Proof.
  intros Hdata Hno Hk. rewrite Hdata. cbn [rbind].
  destruct (JS.get data field) as [v|e] eqn:Hget; cbn [rbind].
  - apply Hk. intros l Hv. subst v. exact (Hno l eq_refl).
  - destruct data; cbn in Hget; try discriminate; inversion Hget; reflexivity.
Qed.

(** A successful answer whose JSON body does not hold an array under [hits]
    (for the discussion adapters) or [articles] (for the headline adapter),
    be the body null, a message object or anything else, makes the adapter
    reject with a [TypeError]. *)
Theorem adapters_reject_body_without_list :
  forall (query : string) (category : option string) (limit : option Z)
         (w : World) (tr : list event) (data : value),
    (fetched_json (reply_to w tr (hn_top_url (default 10 limit))) = Ok data ->
     (forall l, JS.get data "hits" <> Ok (VArr l)) ->
     fst (getHNTop limit w tr) = Err TypeError) /\
    (fetched_json (reply_to w tr (hn_search_url query (default 10 limit))) = Ok data ->
     (forall l, JS.get data "hits" <> Ok (VArr l)) ->
     fst (searchHN query limit w tr) = Err TypeError) /\
    (fetched_json (reply_to w tr (news_url (fetched_category category))) = Ok data ->
     (forall l, JS.get data "articles" <> Ok (VArr l)) ->
     fst (getNews category limit w tr) = Err TypeError).
Proof.
  intros query category limit w tr data. repeat split; intros Hdata Hno.
  - rewrite getHNTop_run. cbn [fst].
    apply (no_array_rejected "hits" _ data); try assumption.
    intros v Hv. apply array_map_not_array. exact Hv.
  - rewrite searchHN_run. cbn [fst].
    apply (no_array_rejected "hits" _ data); try assumption.
    intros v Hv. apply array_map_not_array. exact Hv.
  - rewrite getNews_run. cbn [fst].
    apply (no_array_rejected "articles" _ data); try assumption.
    intros v Hv. apply array_slice_map_not_array. exact Hv.
Qed.

Lemma adapters_reject_body_without_list_witness :
  fst (getHNTop None Sample.message_world []) = Err TypeError /\
  fst (getNews None None Sample.message_world []) = Err TypeError.
Proof.
  destruct (adapters_reject_body_without_list
              "" None None Sample.message_world []
              (VObj [("message", VStr "rate limit exceeded")]))
    as [Htop [_ Hnews]].
  split.
  - apply Htop; [reflexivity|]. intros l H. discriminate H.
  - apply Hnews; [reflexivity|]. intros l H. discriminate H.
Defined.

(** ** Null entries in an upstream list *)

Lemma hn_story_nullish (item : value) :
  JS.is_nullish item = true -> hn_story item = Err TypeError.
Proof.
  intros H. unfold hn_story. rewrite (get_nullish item "title" H). reflexivity.
Qed.

Lemma search_result_nullish (item : value) :
  JS.is_nullish item = true -> search_result item = Err TypeError.
Proof.
  intros H. unfold search_result. rewrite (get_nullish item "title" H). reflexivity.
Qed.

Lemma news_article_nullish (article : value) :
  JS.is_nullish article = true -> news_article article = Err TypeError.
Proof.
  intros H. unfold news_article. rewrite (get_nullish article "title" H). reflexivity.
Qed.

Lemma primitive_to_string (v : value) :
  is_primitive v = true -> exists text, JS.to_string v = Ok text.
Proof.
  destruct v as [| |b| | | |]; cbn; try discriminate; eauto.
  destruct b; eauto.
Qed.

Lemma primitive_id_translatable (item : value) :
  JS.is_nullish item = false ->
  is_primitive (JS.get_opt item "objectID") = true ->
  translatable item = true.
Proof.
  intros Hn Hprim. unfold translatable. rewrite Hn. cbn [negb andb].
  destruct (primitive_to_string _ Hprim) as [text ->]. cbn [is_ok]. apply orb_true_r.
Qed.

(** The three callbacks that turn an upstream entry into a record throw for
    [null] (and [undefined]), with a [TypeError]. Any other entry yields a
    record, with whatever properties missing: always so for an article, and
    for a hit whenever its [objectID] is absent or a plain string, number,
    boolean or null. *)
Theorem entry_translation_fails_only_on_null :
  forall (item : value),
    (JS.is_nullish item = true ->
     hn_story item = Err TypeError /\
     search_result item = Err TypeError /\
     news_article item = Err TypeError) /\
    (JS.is_nullish item = false ->
     (exists a, news_article item = Ok a) /\
     (is_primitive (JS.get_opt item "objectID") = true ->
      (exists s, hn_story item = Ok s) /\
      (exists r, search_result item = Ok r))).
Proof.
  intros item. split; intros H.
  - split; [apply hn_story_nullish|split; [apply search_result_nullish|apply news_article_nullish]];
      exact H.
  - split; [apply news_article_total; exact H|]. intros Hprim.
    pose proof (primitive_id_translatable item H Hprim) as Ht.
    split; [apply hn_story_total|apply search_result_total]; exact Ht.
Qed.

Lemma entry_translation_fails_only_on_null_witness :
  news_article VNull = Err TypeError /\
  (exists r, search_result (VObj [("title", VStr "no highlight, no url")]) = Ok r).
Proof.
  split.
  - apply (proj1 (entry_translation_fails_only_on_null VNull) eq_refl).
  - apply (proj2 (entry_translation_fails_only_on_null
                    (VObj [("title", VStr "no highlight, no url")])) eq_refl).
    reflexivity.
Defined.

Lemma to_string_error (v : value) (e : error) :
  JS.to_string v = Err e -> e = TypeError.
Proof.
  revert v e. fix IH 1. intros v e.
  destruct v as [| |b|n|s|elems|props]; cbn [JS.to_string]; try discriminate.
  - destruct b; discriminate.
  - induction elems as [|x rest IHrest]; [discriminate|].
    destruct (JS.is_nullish x) eqn:Hx; cbn [rbind].
    + destruct rest as [|y rest']; [discriminate|].
      destruct ((fix join (l : list value) : result string :=
                   match l with
                   | [] => Ok ""
                   | x0 :: rest0 =>
                       rbind (if JS.is_nullish x0 then Ok "" else JS.to_string x0)
                         (fun sx =>
                            match rest0 with
                            | [] => Ok sx
                            | _ :: _ => rbind (join rest0) (fun srest => Ok (sx ++ "," ++ srest))
                            end)
                   end) (y :: rest')) as [t|e'] eqn:Hj; cbn [rbind]; [discriminate|].
      intros H. inversion H; subst e'. apply IHrest. reflexivity.
    + destruct (JS.to_string x) as [sx|e'] eqn:Hsx; cbn [rbind].
      * destruct rest as [|y rest']; [discriminate|].
        destruct ((fix join (l : list value) : result string :=
                     match l with
                     | [] => Ok ""
                     | x0 :: rest0 =>
                         rbind (if JS.is_nullish x0 then Ok "" else JS.to_string x0)
                           (fun sx =>
                              match rest0 with
                              | [] => Ok sx
                              | _ :: _ =>
                                  rbind (join rest0) (fun srest => Ok (sx ++ "," ++ srest))
                              end)
                     end) (y :: rest')) as [t|e''] eqn:Hj; cbn [rbind]; [discriminate|].
        intros H. inversion H; subst e''. apply IHrest. reflexivity.
      * intros H. inversion H; subst e'. apply (IH x). exact Hsx.
  - destruct (JS.has_own "toString" props); [intros H; inversion H; reflexivity|discriminate].
Qed.

Lemma hn_url_error (item : value) (e : error) : hn_url item = Err e -> e = TypeError.
Proof.
  unfold hn_url. destruct (JS.is_nullish item) eqn:Hn.
  - rewrite (get_nullish item "url" Hn). cbn [rbind]. intros H. inversion H. reflexivity.
  - rewrite !(get_of_object item _ Hn). cbn [rbind].
    destruct (JS.truthy _); [discriminate|].
    destruct (JS.to_string _) as [text|e'] eqn:Ht; cbn [rbind]; [discriminate|].
    intros H. inversion H; subst e'. eapply to_string_error. exact Ht.
Qed.

Lemma hn_story_error (item : value) (e : error) : hn_story item = Err e -> e = TypeError.
Proof.
  unfold hn_story. destruct (JS.is_nullish item) eqn:Hn.
  - rewrite (get_nullish item "title" Hn). cbn [rbind]. intros H. inversion H. reflexivity.
  - rewrite !(get_of_object item _ Hn). cbn [rbind].
    destruct (hn_url item) as [u|e'] eqn:Hu; cbn [rbind]; [discriminate|].
    intros H. inversion H; subst e'. eapply hn_url_error. exact Hu.
Qed.

Lemma search_result_error (item : value) (e : error) :
  search_result item = Err e -> e = TypeError.
Proof.
  unfold search_result. destruct (JS.is_nullish item) eqn:Hn.
  - rewrite (get_nullish item "title" Hn). cbn [rbind]. intros H. inversion H. reflexivity.
  - rewrite !(get_of_object item _ Hn). cbn [rbind].
    destruct (hn_url item) as [u|e'] eqn:Hu; cbn [rbind]; [discriminate|].
    intros H. inversion H; subst e'. eapply hn_url_error. exact Hu.
Qed.

Lemma news_article_error (article : value) (e : error) :
  news_article article = Err e -> e = TypeError.
Proof.
  unfold news_article. destruct (JS.is_nullish article) eqn:Hn.
  - rewrite (get_nullish article "title" Hn). cbn [rbind]. intros H. inversion H. reflexivity.
  - rewrite !(get_of_object article _ Hn). cbn [rbind]. discriminate.
Qed.

Lemma map_throwing_Exists {A} (f : value -> result A) (l : list value) :
  (forall x, JS.is_nullish x = true -> f x = Err TypeError) ->
  (forall x e, f x = Err e -> e = TypeError) ->
  Exists (fun x => JS.is_nullish x = true) l ->
  JS.map_throwing f l = Err TypeError.
Proof.
  intros Hnull Herr. induction 1 as [x rest Hx|x rest _ IH]; cbn [JS.map_throwing].
  - rewrite (Hnull x Hx). reflexivity.
  - destruct (f x) as [y|e] eqn:Hfx; cbn [rbind].
    + rewrite IH. reflexivity.
    + rewrite (Herr x e Hfx). reflexivity.
Qed.

(** One null entry spoils the whole list: when the answer of the upstream
    holds a null among its hits, [getHNTop] and [searchHN] reject with a
    [TypeError] and return no record at all; so does [getNews] when a null is
    among the articles it keeps. *)
Theorem null_entry_fails_the_whole_call :
  forall (query : string) (category : option string) (limit : option Z)
         (w : World) (tr : list event) (entries : list value),
    (reply_array "hits" (reply_to w tr (hn_top_url (default 10 limit))) = Some entries ->
     Exists (fun h => JS.is_nullish h = true) entries ->
     fst (getHNTop limit w tr) = Err TypeError) /\
    (reply_array "hits" (reply_to w tr (hn_search_url query (default 10 limit)))
       = Some entries ->
     Exists (fun h => JS.is_nullish h = true) entries ->
     fst (searchHN query limit w tr) = Err TypeError) /\
    (reply_array "articles" (reply_to w tr (news_url (fetched_category category)))
       = Some entries ->
     Exists (fun a => JS.is_nullish a = true) (JS.slice0 entries (default 10 limit)) ->
     fst (getNews category limit w tr) = Err TypeError).
Proof.
  intros query category limit w tr entries. repeat split; intros Harr Hnull.
  - rewrite getHNTop_run. cbn [fst]. rewrite (reply_array_Some _ _ _ _ Harr).
    cbn [array_map].
    apply map_throwing_Exists; [apply hn_story_nullish|apply hn_story_error|exact Hnull].
  - rewrite searchHN_run. cbn [fst]. rewrite (reply_array_Some _ _ _ _ Harr).
    cbn [array_map].
    apply map_throwing_Exists;
      [apply search_result_nullish|apply search_result_error|exact Hnull].
  - rewrite getNews_run. cbn [fst]. rewrite (reply_array_Some _ _ _ _ Harr).
    cbn [array_slice_map].
    apply map_throwing_Exists;
      [apply news_article_nullish|apply news_article_error|exact Hnull].
Qed.

Lemma null_entry_fails_the_whole_call_witness :
  fst (getHNTop (Some 5)
         (Sample.world [Sample.hit "first" VNull "1"; VNull; Sample.hit "third" VNull "3"] [])
         []) = Err TypeError.
Proof.
  apply (proj1 (null_entry_fails_the_whole_call
                  "" None (Some 5)
                  (Sample.world
                     [Sample.hit "first" VNull "1"; VNull; Sample.hit "third" VNull "3"] [])
                  []
                  [Sample.hit "first" VNull "1"; VNull; Sample.hit "third" VNull "3"])).
  - reflexivity.
  - apply Exists_cons_tl. apply Exists_cons_hd. reflexivity.
Defined.

(** ** The requests a handler issues *)

(** The two handlers that join a discussion fetch and a headline fetch,
    [overview] and [all-signals], issue both requests on every call, the
    discussion one first, whatever becomes of either; and they succeed
    exactly when both fetches do, so that one failing upstream fails the
    call. *)
Theorem joined_handlers_issue_both_requests :
  forall (ctx_input : AllSignalsInput.t) (w : World) (tr : list event),
    (snd (handler overview tt w tr) =
       (tr ++ [EFetch "https://hn.algolia.com/api/v1/search?tags=front_page&hitsPerPage=3";
               EFetch "https://saurav.tech/NewsAPI/top-headlines/category/technology/us.json"])%list
     /\
     is_ok (fst (handler overview tt w tr)) =
       is_ok (fst (getHNTop (Some 3) w tr))
       && is_ok (fst (getNews (Some "technology") (Some 3) w
                        (tr ++ [EFetch (hn_top_url 3)])%list))) /\
    (snd (handler all_signals ctx_input w tr) =
       (tr ++ [EFetch (hn_top_url (AllSignalsInput.hnLimit ctx_input));
               EFetch (news_url (fetched_category
                                   (Some (AllSignalsInput.newsCategory ctx_input))))])%list
     /\
     is_ok (fst (handler all_signals ctx_input w tr)) =
       is_ok (fst (getHNTop (Some (AllSignalsInput.hnLimit ctx_input)) w tr))
       && is_ok (fst (getNews (Some (AllSignalsInput.newsCategory ctx_input))
                              (Some (AllSignalsInput.newsLimit ctx_input)) w
                        (tr ++ [EFetch (hn_top_url (AllSignalsInput.hnLimit ctx_input))])%list))).
Proof.
  intros ctx_input w tr. split.
  - assert (Htr1 : snd (getHNTop (Some 3) w tr) = (tr ++ [EFetch (hn_top_url 3)])%list)
      by (rewrite getHNTop_run; reflexivity).
    assert (Htr2 : snd (getNews (Some "technology") (Some 3) w
                          (tr ++ [EFetch (hn_top_url 3)])%list)
                   = ((tr ++ [EFetch (hn_top_url 3)]) ++ [EFetch (news_url "technology")])%list)
      by (rewrite getNews_run; reflexivity).
    cbn [handler overview]. unfold bind, promise_all2, now_iso, ret.
    destruct (getHNTop (Some 3) w tr) as [ra tr1]. cbn [snd fst] in *. subst tr1.
    destruct (getNews (Some "technology") (Some 3) w (tr ++ [EFetch (hn_top_url 3)])%list)
      as [rb tr2].
    cbn [snd fst] in *. subst tr2. rewrite <- app_assoc.
    destruct ra, rb; split; reflexivity.
  - assert (Htr1 : snd (getHNTop (Some (AllSignalsInput.hnLimit ctx_input)) w tr)
                   = (tr ++ [EFetch (hn_top_url (AllSignalsInput.hnLimit ctx_input))])%list)
      by (rewrite getHNTop_run; reflexivity).
    assert (Htr2 : snd (getNews (Some (AllSignalsInput.newsCategory ctx_input))
                                (Some (AllSignalsInput.newsLimit ctx_input)) w
                          (tr ++ [EFetch (hn_top_url (AllSignalsInput.hnLimit ctx_input))])%list)
                   = ((tr ++ [EFetch (hn_top_url (AllSignalsInput.hnLimit ctx_input))])
                        ++ [EFetch (news_url (fetched_category
                                      (Some (AllSignalsInput.newsCategory ctx_input))))])%list)
      by (rewrite getNews_run; reflexivity).
    cbn [handler all_signals]. unfold bind, promise_all2, now_iso, ret.
    destruct (getHNTop (Some (AllSignalsInput.hnLimit ctx_input)) w tr) as [ra tr1].
    cbn [snd fst] in *. subst tr1.
    destruct (getNews (Some (AllSignalsInput.newsCategory ctx_input))
                      (Some (AllSignalsInput.newsLimit ctx_input)) w
                (tr ++ [EFetch (hn_top_url (AllSignalsInput.hnLimit ctx_input))])%list)
      as [rb tr2].
    cbn [snd fst] in *. subst tr2. rewrite <- app_assoc.
    destruct ra, rb; split; reflexivity.
Qed.

Lemma promise_all_map_trace {X A} (f : X -> M A) (url : X -> string) :
  (forall x w tr, snd (f x w tr) = (tr ++ [EFetch (url x)])%list) ->
  forall xs w tr,
    snd (promise_all (map f xs) w tr) = (tr ++ map (fun x => EFetch (url x)) xs)%list.
Proof.
  intros Hf. induction xs as [|x rest IH]; intros w tr; cbn [map promise_all].
  - cbn. rewrite app_nil_r. reflexivity.
  - specialize (Hf x w tr). destruct (f x w tr) as [r tr1]. cbn [snd] in Hf. subst tr1.
    specialize (IH w (tr ++ [EFetch (url x)])%list).
    destruct (promise_all (map f rest) w (tr ++ [EFetch (url x)])%list) as [rs tr2].
    cbn [snd] in *. subst tr2. rewrite <- app_assoc. reflexivity.
Qed.

Lemma promise_all_map_Forall2 {X A} (f : X -> M A) (xs : list X) :
  forall w tr rs tr',
    promise_all (map f xs) w tr = (Ok rs, tr') ->
    Forall2 (fun x r => exists tr0 tr1, f x w tr0 = (Ok r, tr1)) xs rs.
Proof.
  induction xs as [|x rest IH]; intros w tr rs tr' H; cbn [map promise_all] in H.
  - inversion H. constructor.
  - destruct (f x w tr) as [r tr1] eqn:Hx.
    destruct (promise_all (map f rest) w tr1) as [rs' tr2] eqn:Hrest.
    destruct r as [y|e]; [|discriminate]. destruct rs' as [ys|e]; [|discriminate].
    inversion H; subst. constructor.
    + exists tr, tr1. exact Hx.
    + eapply IH. exact Hrest.
Qed.

(** [news-multi] issues one headline request per entry of [categories], in
    the order of the entries and whatever the outcome of each: a category
    given twice is requested twice. *)
Theorem news_multi_requests_each_category :
  forall (ctx_input : NewsMultiInput.t) (w : World) (tr : list event),
    snd (handler news_multi ctx_input w tr) =
      (tr ++ map (fun cat => EFetch (news_url (fetched_category (Some cat))))
                 (NewsMultiInput.categories ctx_input))%list.
Proof.
  intros ctx_input w tr. cbn [handler news_multi]. unfold bind at 1.
  pose proof (promise_all_map_trace
                (fun cat =>
                   articles <- getNews (Some cat)
                                 (Some (NewsMultiInput.limitPerCategory ctx_input)) ;;
                   ret {| NewsMulti.category := cat; NewsMulti.articles := articles |})
                (fun cat => news_url (fetched_category (Some cat)))) as Htrace.
  rewrite <- (Htrace ltac:(intros x w0 tr0; unfold bind, ret; rewrite getNews_run;
                           destruct (rbind _ _); reflexivity)
                     (NewsMultiInput.categories ctx_input) w tr).
  destruct (promise_all _ w tr) as [[results|e] tr1]; reflexivity.
Qed.

Lemma slice0_length_bound {A} (l : list A) (limit : Z) :
  0 <= limit -> len (JS.slice0 l limit) <= limit.
Proof.
  intros Hpos. rewrite slice0_nonneg by exact Hpos.
  rewrite len_firstn by exact Hpos. lia.
Qed.

Lemma getNews_length_bound (category : option string) (limit : Z) (w : World)
      (tr tr' : list event) (records : list NewsArticle.t) :
  0 <= limit ->
  getNews category (Some limit) w tr = (Ok records, tr') ->
  len records <= limit.
Proof.
  intros Hpos Hrun. destruct (getNews_success _ _ _ _ _ _ Hrun) as [articles [_ HF]].
  cbn [default] in HF. apply Forall2_length_eq in HF.
  pose proof (slice0_length_bound articles limit Hpos) as Hb.
  unfold len in *. rewrite <- HF. exact Hb.
Qed.

Lemma sum_Z_bound (l : list Z) (b : Z) :
  Forall (fun x => x <= b) l -> sum_Z l <= len l * b.
Proof.
  unfold len. induction 1 as [|x l Hx _ IH]; cbn [sum_Z fold_right List.length].
  - lia.
  - fold (sum_Z l). rewrite Nat2Z.inj_succ. lia.
Qed.

Lemma news_multi_results_shape (ctx_input : NewsMultiInput.t) (w : World)
      (tr tr' : list event) (env : Envelope) :
  0 <= NewsMultiInput.limitPerCategory ctx_input ->
  handler news_multi ctx_input w tr = (Ok env, tr') ->
  exists results,
    output env = NewsMultiOut {|
      NewsMulti.categories := NewsMultiInput.categories ctx_input;
      NewsMulti.totalArticles :=
        sum_Z (map (fun r => len (NewsMulti.articles r)) results);
      NewsMulti.results := results;
      NewsMulti.fetchedAt := VStr (clock w) |} /\
    map NewsMulti.category results = NewsMultiInput.categories ctx_input /\
    Forall (fun r => 0 <= len (NewsMulti.articles r)
                     <= NewsMultiInput.limitPerCategory ctx_input) results.
Proof.
  intros Hpos H. cbn [handler news_multi] in H.
  await H as results tr1 Hall.
  await H as fetchedAt tr2 Hnow. apply now_iso_run in Hnow. destruct Hnow as [-> ->].
  unfold ret in H. inversion H. clear H. subst env tr1.
  exists results. cbn [output]. rewrite fold_left_sum. cbn [Z.add]. split; [reflexivity|].
  apply promise_all_map_Forall2 in Hall.
  set (cats := NewsMultiInput.categories ctx_input) in *. clearbody cats.
  induction Hall as [|cat r cats results (tr0 & tr3 & Hr) _ [IH1 IH2]].
  - split; [reflexivity|constructor].
  - await Hr as articles tr4 Hnews. unfold ret in Hr. inversion Hr.
    cbn [map NewsMulti.category]. rewrite IH1. split; [reflexivity|].
    constructor; [|exact IH2]. cbn [NewsMulti.articles].
    split; [unfold len; lia|]. eapply getNews_length_bound; eassumption.
Qed.

Lemma sum_Z_nonneg (l : list Z) : Forall (fun x => 0 <= x) l -> 0 <= sum_Z l.
Proof.
  induction 1 as [|x l Hx _ IH]; cbn [sum_Z fold_right]; [lia|].
  fold (sum_Z l). lia.
Qed.

(** In a successful [news-multi] response the results follow the requested
    categories one for one and in order (repetitions included), each result
    holds at most [limitPerCategory] articles, and [totalArticles] is at
    most the number of categories times [limitPerCategory]. *)
Theorem news_multi_results_follow_categories :
  forall (ctx_input : NewsMultiInput.t) (w : World) (tr tr' : list event) (env : Envelope),
    0 <= NewsMultiInput.limitPerCategory ctx_input ->
    handler news_multi ctx_input w tr = (Ok env, tr') ->
    exists o,
      output env = NewsMultiOut o /\
      NewsMulti.categories o = NewsMultiInput.categories ctx_input /\
      map NewsMulti.category (NewsMulti.results o) = NewsMultiInput.categories ctx_input /\
      Forall (fun r => len (NewsMulti.articles r) <= NewsMultiInput.limitPerCategory ctx_input)
             (NewsMulti.results o) /\
      NewsMulti.totalArticles o
        <= len (NewsMultiInput.categories ctx_input)
           * NewsMultiInput.limitPerCategory ctx_input.
Proof.
  intros ctx_input w tr tr' env Hpos Hrun.
  destruct (news_multi_results_shape _ _ _ _ _ Hpos Hrun) as (results & Hout & Hcats & Hb).
  eexists. split; [exact Hout|].
  cbn [NewsMulti.categories NewsMulti.results NewsMulti.totalArticles].
  split; [reflexivity|]. split; [exact Hcats|].
  assert (Hupper : Forall (fun r => len (NewsMulti.articles r)
                                    <= NewsMultiInput.limitPerCategory ctx_input) results).
  { eapply Forall_impl; [|exact Hb]. intros r Hr. apply Hr. }
  split; [exact Hupper|].
  assert (Hlen : len (NewsMultiInput.categories ctx_input)
                 = len (map (fun r => len (NewsMulti.articles r)) results)).
  { rewrite <- Hcats. unfold len. rewrite !length_map. reflexivity. }
  rewrite Hlen. apply sum_Z_bound. apply Forall_map. exact Hupper.
Qed.

Lemma news_multi_results_follow_categories_witness :
  exists o,
    map NewsMulti.category (NewsMulti.results o) = ["science"; "health"; "science"] /\
    NewsMulti.totalArticles o <= 3 * 2.
Proof.
  destruct (news_multi_results_follow_categories
              {| NewsMultiInput.categories := ["science"; "health"; "science"];
                 NewsMultiInput.limitPerCategory := 2 |}
              (Sample.world [] Sample.five_articles) [] _ _ (Z.le_0_2) eq_refl)
    as (o & _ & _ & Hcats & _ & Htotal).
  exists o. split; [exact Hcats|exact Htotal].
Defined.

(** ** Input schemas *)

Lemma bounded_number_field (name : string) (lo hi d : Z) (props : list (string * value))
      (n : Z) :
  Zod.field name
    (Zod.default (Zod.optional (Zod.number_max (Zod.number_min Zod.number lo) hi)) d)
    (VObj props) = Ok n
  <-> bounded_or_default (JS.assoc name props) lo hi d n.
Proof.
  unfold Zod.field, bounded_or_default. cbn [JS.get_opt].
  unfold Zod.default, Zod.optional, Zod.number_max, Zod.number_min, Zod.number, Zod.issue.
  destruct (JS.assoc name props) as [| | |m| | |]; cbn [rbind];
    try (split; [discriminate|intros [[H _]|[H _]]; discriminate H]).
  - split.
    + intros H. inversion H. left. split; reflexivity.
    + intros [[_ ->]|[H _]]; [reflexivity|discriminate H].
  - destruct (m <? lo) eqn:Hlo; cbn [rbind].
    + apply Z.ltb_lt in Hlo. split; [discriminate|].
      intros [[H _]|[H Hb]]; [discriminate H|]. inversion H; subst. lia.
    + apply Z.ltb_ge in Hlo. destruct (hi <? m) eqn:Hhi; cbn [rbind].
      * apply Z.ltb_lt in Hhi. split; [discriminate|].
        intros [[H _]|[H Hb]]; [discriminate H|]. inversion H; subst. lia.
      * apply Z.ltb_ge in Hhi. split.
        -- intros H. inversion H; subst. right. split; [reflexivity|lia].
        -- intros [[H _]|[H _]]; [discriminate H|]. inversion H. reflexivity.
Qed.

Lemma bounded_number_field_issue (name : string) (lo hi d : Z)
      (props : list (string * value)) (e : error) :
  Zod.field name
    (Zod.default (Zod.optional (Zod.number_max (Zod.number_min Zod.number lo) hi)) d)
    (VObj props) = Err e ->
  exists rule, e = ValidationError name rule.
Proof.
  unfold Zod.field. cbn [JS.get_opt].
  unfold Zod.default, Zod.optional, Zod.number_max, Zod.number_min, Zod.number, Zod.issue.
  destruct (JS.assoc name props) as [| | |m| | |]; cbn [rbind];
    try (intros H; inversion H; eauto; fail).
  destruct (m <? lo); cbn [rbind]; [intros H; inversion H; eauto|].
  destruct (hi <? m); cbn [rbind]; intros H; inversion H; eauto.
Qed.

Lemma category_field (name : string) (props : list (string * value)) (c : string) :
  Zod.field name (Zod.default (Zod.optional category_enum) "technology") (VObj props) = Ok c
  <-> category_or_default (JS.assoc name props) c.
Proof.
  unfold Zod.field, category_or_default. cbn [JS.get_opt].
  unfold Zod.default, Zod.optional, category_enum.
  destruct (JS.assoc name props) as [| | | |s| |] eqn:Hv;
    try (split; [unfold Zod.enum, Zod.issue; cbn [rbind]; discriminate
                |intros [[H _]|[H _]]; discriminate H]).
  - split.
    + intros H. inversion H. left. split; reflexivity.
    + intros [[_ ->]|[H _]]; [reflexivity|discriminate H].
  - destruct (Zod.enum _ name (VStr s)) as [s'|e] eqn:Henum; cbn [rbind].
    + apply enum_accepts in Henum. destruct Henum as [Heq Hin]. inversion Heq; subst s'.
      split.
      * intros H. inversion H; subst. right. split; [reflexivity|exact Hin].
      * intros [[H _]|[H _]]; [discriminate H|]. inversion H. reflexivity.
    + split; [discriminate|].
      intros [[H _]|[H Hin]]; [discriminate H|]. inversion H; subst c.
      rewrite (proj2 (enum_accepts _ name (VStr s) s) (conj eq_refl Hin)) in Henum.
      discriminate Henum.
Qed.

Lemma category_field_issue (name : string) (props : list (string * value)) (e : error) :
  Zod.field name (Zod.default (Zod.optional category_enum) "technology") (VObj props) = Err e ->
  exists rule, e = ValidationError name rule.
Proof.
  unfold Zod.field. cbn [JS.get_opt]. unfold Zod.default, Zod.optional, category_enum.
  destruct (JS.assoc name props) as [| | | |s| |];
    try (unfold Zod.enum, Zod.issue; cbn [rbind]; intros H; inversion H; eauto; fail).
  destruct (Zod.enum _ name (VStr s)) as [s'|e'] eqn:Henum; cbn [rbind]; [discriminate|].
  intros H. inversion H; subst e'. eapply enum_issue. exact Henum.
Qed.

Lemma hn_top_input_inv (rawInput : value) (validated : HnTopInput.t) :
  input hn_top "input" rawInput = Ok validated ->
  exists props,
    rawInput = VObj props /\
    bounded_or_default (JS.assoc "limit" props) 1 50 20 (HnTopInput.limit validated).
Proof.
  destruct validated as [limit]. cbn [input hn_top HnTopInput.limit].
  unfold Zod.object, Zod.issue.
  destruct rawInput as [| | | | | |props]; try discriminate.
  intros H.
  destruct (Zod.field "limit" _ (VObj props)) as [n|e] eqn:Hf; cbn [rbind] in H;
    [|discriminate].
  inversion H; subst n. exists props. split; [reflexivity|].
  apply bounded_number_field. exact Hf.
Qed.

Lemma search_input_inv (rawInput : value) (validated : SearchInput.t) :
  input search "input" rawInput = Ok validated ->
  exists props,
    rawInput = VObj props /\
    JS.assoc "query" props = VStr (SearchInput.query validated) /\
    (1 <= JS.string_length (SearchInput.query validated) <= 100)%nat /\
    bounded_or_default (JS.assoc "limit" props) 1 30 15 (SearchInput.limit validated).
Proof.
  destruct validated as [query limit].
  cbn [input search SearchInput.query SearchInput.limit]. unfold Zod.object, Zod.issue.
  destruct rawInput as [| | | | | |props]; try discriminate.
  unfold Zod.field at 1. cbn [JS.get_opt].
  unfold Zod.string_max, Zod.string_min, Zod.string_, Zod.issue.
  intros H.
  destruct (JS.assoc "query" props) as [| | | |q| |] eqn:Hq; cbn [rbind] in H;
    try discriminate.
  destruct (JS.string_length q <? 1)%nat eqn:Hlo; cbn [rbind] in H; [discriminate|].
  destruct (100 <? JS.string_length q)%nat eqn:Hhi; cbn [rbind] in H; [discriminate|].
  destruct (Zod.field "limit" _ (VObj props)) as [n|e] eqn:Hf; cbn [rbind] in H;
    [|discriminate].
  inversion H; subst. exists props. apply Nat.ltb_ge in Hlo, Hhi.
  split; [reflexivity|]. split; [exact Hq|]. split; [lia|].
  apply bounded_number_field. exact Hf.
Qed.

Lemma news_input_inv (rawInput : value) (validated : NewsInput.t) :
  input news "input" rawInput = Ok validated ->
  exists props,
    rawInput = VObj props /\
    category_or_default (JS.assoc "category" props) (NewsInput.category validated) /\
    bounded_or_default (JS.assoc "limit" props) 1 30 15 (NewsInput.limit validated).
Proof.
  destruct validated as [category limit].
  cbn [input news NewsInput.category NewsInput.limit]. unfold Zod.object, Zod.issue.
  destruct rawInput as [| | | | | |props]; try discriminate.
  intros H.
  destruct (Zod.field "category" _ (VObj props)) as [c|e] eqn:Hc; cbn [rbind] in H;
    [|discriminate].
  destruct (Zod.field "limit" _ (VObj props)) as [n|e] eqn:Hf; cbn [rbind] in H;
    [|discriminate].
  inversion H; subst. exists props. split; [reflexivity|].
  split; [apply category_field; exact Hc|apply bounded_number_field; exact Hf].
Qed.

Lemma all_signals_input_inv (rawInput : value) (validated : AllSignalsInput.t) :
  input all_signals "input" rawInput = Ok validated ->
  exists props,
    rawInput = VObj props /\
    bounded_or_default (JS.assoc "hnLimit" props) 1 30 15
                       (AllSignalsInput.hnLimit validated) /\
    category_or_default (JS.assoc "newsCategory" props)
                        (AllSignalsInput.newsCategory validated) /\
    bounded_or_default (JS.assoc "newsLimit" props) 1 20 10
                       (AllSignalsInput.newsLimit validated).
Proof.
  destruct validated as [hnLimit newsCategory newsLimit].
  cbn [input all_signals AllSignalsInput.hnLimit AllSignalsInput.newsCategory
       AllSignalsInput.newsLimit].
  unfold Zod.object, Zod.issue.
  destruct rawInput as [| | | | | |props]; try discriminate.
  intros H.
  destruct (Zod.field "hnLimit" _ (VObj props)) as [n1|e] eqn:H1; cbn [rbind] in H;
    [|discriminate].
  destruct (Zod.field "newsCategory" _ (VObj props)) as [c|e] eqn:Hc; cbn [rbind] in H;
    [|discriminate].
  destruct (Zod.field "newsLimit" _ (VObj props)) as [n2|e] eqn:H2; cbn [rbind] in H;
    [|discriminate].
  inversion H; subst. exists props. split; [reflexivity|].
  split; [apply bounded_number_field; exact H1|].
  split; [apply category_field; exact Hc|apply bounded_number_field; exact H2].
Qed.

(** [hn-top] accepts an input exactly when it is an object whose [limit] is
    absent, and then 20, or a number from 1 to 50; a limit given as null, as
    a string or out of range is rejected. *)
Theorem hn_top_accepted_inputs :
  forall (rawInput : value) (validated : HnTopInput.t),
    input hn_top "input" rawInput = Ok validated
    <-> exists props,
        rawInput = VObj props /\
        bounded_or_default (JS.assoc "limit" props) 1 50 20 (HnTopInput.limit validated).
Proof.
  intros rawInput validated. split; [apply hn_top_input_inv|].
  destruct validated as [limit]. intros [props [-> Hb]].
  cbn [input hn_top HnTopInput.limit] in *. unfold Zod.object.
  apply bounded_number_field in Hb. rewrite Hb. reflexivity.
Qed.

(** [search] requires a [query] that is a string whose length, counted in
    UTF-16 code units as [.length] counts it, is from 1 to 100: an input
    without query, or with an empty or an overlong one, is rejected; its
    [limit] is absent, and then 15, or a number from 1 to 30. *)
Theorem search_accepted_inputs :
  forall (rawInput : value) (validated : SearchInput.t),
    input search "input" rawInput = Ok validated
    <-> exists props,
        rawInput = VObj props /\
        JS.assoc "query" props = VStr (SearchInput.query validated) /\
        (1 <= JS.string_length (SearchInput.query validated) <= 100)%nat /\
        bounded_or_default (JS.assoc "limit" props) 1 30 15 (SearchInput.limit validated).
Proof.
  intros rawInput validated. split; [apply search_input_inv|].
  destruct validated as [query limit]. intros [props [-> [Hq [Hlen Hb]]]].
  cbn [input search SearchInput.query SearchInput.limit] in *. unfold Zod.object.
  unfold Zod.field at 1. cbn [JS.get_opt].
  unfold Zod.string_max, Zod.string_min, Zod.string_, Zod.issue.
  rewrite Hq. cbn [rbind].
  destruct (JS.string_length query <? 1)%nat eqn:Hlo; [apply Nat.ltb_lt in Hlo; lia|].
  cbn [rbind].
  destruct (100 <? JS.string_length query)%nat eqn:Hhi; [apply Nat.ltb_lt in Hhi; lia|].
  cbn [rbind]. apply bounded_number_field in Hb. rewrite Hb. reflexivity.
Qed.

(** [news] accepts a [category] that is absent, and then [technology], or
    one of the seven enumerated strings, and a [limit] that is absent, and
    then 15, or a number from 1 to 30. *)
Theorem news_accepted_inputs :
  forall (rawInput : value) (validated : NewsInput.t),
    input news "input" rawInput = Ok validated
    <-> exists props,
        rawInput = VObj props /\
        category_or_default (JS.assoc "category" props) (NewsInput.category validated) /\
        bounded_or_default (JS.assoc "limit" props) 1 30 15 (NewsInput.limit validated).
Proof.
  intros rawInput validated. split; [apply news_input_inv|].
  destruct validated as [category limit]. intros [props [-> [Hc Hb]]].
  cbn [input news NewsInput.category NewsInput.limit] in *. unfold Zod.object.
  apply category_field in Hc. apply bounded_number_field in Hb.
  rewrite Hc. cbn [rbind]. rewrite Hb. reflexivity.
Qed.

(** [all-signals] accepts [hnLimit] absent (15) or from 1 to 30,
    [newsCategory] absent ([technology]) or enumerated, and [newsLimit]
    absent (10) or from 1 to 20; the empty object is a valid input. *)
Theorem all_signals_accepted_inputs :
  forall (rawInput : value) (validated : AllSignalsInput.t),
    input all_signals "input" rawInput = Ok validated
    <-> exists props,
        rawInput = VObj props /\
        bounded_or_default (JS.assoc "hnLimit" props) 1 30 15
                           (AllSignalsInput.hnLimit validated) /\
        category_or_default (JS.assoc "newsCategory" props)
                            (AllSignalsInput.newsCategory validated) /\
        bounded_or_default (JS.assoc "newsLimit" props) 1 20 10
                           (AllSignalsInput.newsLimit validated).
Proof.
  intros rawInput validated. split; [apply all_signals_input_inv|].
  destruct validated as [hnLimit newsCategory newsLimit]. intros [props [-> [H1 [Hc H2]]]].
  cbn [input all_signals AllSignalsInput.hnLimit AllSignalsInput.newsCategory
       AllSignalsInput.newsLimit] in *.
  unfold Zod.object.
  apply bounded_number_field in H1, H2. apply category_field in Hc.
  rewrite H1. cbn [rbind]. rewrite Hc. cbn [rbind]. rewrite H2. reflexivity.
Qed.

Lemma query_field_issue (props : list (string * value)) (e : error) :
  Zod.field "query" (Zod.string_max (Zod.string_min Zod.string_ 1) 100) (VObj props) = Err e ->
  exists rule, e = ValidationError "query" rule.
Proof.
  unfold Zod.field. cbn [JS.get_opt].
  unfold Zod.string_max, Zod.string_min, Zod.string_, Zod.issue.
  destruct (JS.assoc "query" props) as [| | | |q| |]; cbn [rbind];
    try (intros H; inversion H; eauto; fail).
  destruct (JS.string_length q <? 1)%nat; cbn [rbind]; [intros H; inversion H; eauto|].
  destruct (100 <? JS.string_length q)%nat; cbn [rbind]; intros H; inversion H; eauto.
Qed.

(** Taking a failed schema run apart, one field at a time. *)
Ltac field_issue H :=
  repeat match type of H with
         | rbind ?r _ = Err _ =>
             let Hf := fresh "Hf" in
             destruct r eqn:Hf; cbn [rbind] in H;
             [|inversion H; subst;
               first [ eapply bounded_number_field_issue in Hf
                     | eapply category_field_issue in Hf
                     | eapply categories_field_issue in Hf
                     | eapply query_field_issue in Hf ];
               destruct Hf as [rule ->]; eauto]
         end;
  try discriminate H.

(** Whatever the raw input, the schema of a registered entrypoint either
    accepts it or rejects it with a [ValidationError] naming a field and a
    rule, never with another error; and an input that is not an object (null,
    a number, a string, an array, nothing at all) is rejected by every
    entrypoint, [overview] included. *)
Theorem schemas_reject_with_validation_errors :
  forall (def : Entrypoint) (rawInput : value),
    In def entrypoints ->
    (forall e, input def "input" rawInput = Err e ->
               exists field rule, e = ValidationError field rule) /\
    ((forall props, rawInput <> VObj props) ->
     input def "input" rawInput = Err (ValidationError "input" "invalid_type")).
Proof.
  intros def rawInput Hdef. unfold entrypoints, addEntrypoint in Hdef. cbn [app] in Hdef.
  split.
  - intros e H.
    destruct Hdef as [<-|[<-|[<-|[<-|[<-|[<-|[]]]]]]];
      cbn [input overview hn_top news search news_multi all_signals] in H;
      unfold Zod.object, Zod.issue in H;
      (destruct rawInput as [| | | | | |props]; try (inversion H; eauto; fail));
      field_issue H.
  - intros Hno.
    destruct Hdef as [<-|[<-|[<-|[<-|[<-|[<-|[]]]]]]];
      cbn [input overview hn_top news search news_multi all_signals];
      unfold Zod.object, Zod.issue;
      (destruct rawInput as [| | | | | |props]; try reflexivity);
      exfalso; exact (Hno props eq_refl).
Qed.

Lemma schemas_reject_with_validation_errors_witness :
  input search "input" (VObj [("query", VStr "")]) = Err (ValidationError "query" "too_small") /\
  (exists field rule,
      input hn_top "input" (VObj [("limit", VStr "5")]) = Err (ValidationError field rule)) /\
  input overview "input" VNull = Err (ValidationError "input" "invalid_type").
Proof.
  assert (Hsearch : In search entrypoints)
    by (unfold entrypoints, addEntrypoint; cbn [app]; do 3 right; left; reflexivity).
  assert (Htop : In hn_top entrypoints)
    by (unfold entrypoints, addEntrypoint; cbn [app]; right; left; reflexivity).
  assert (Hov : In overview entrypoints)
    by (unfold entrypoints, addEntrypoint; cbn [app]; left; reflexivity).
  split; [reflexivity|]. split.
  - destruct (proj1 (schemas_reject_with_validation_errors
                       hn_top (VObj [("limit", VStr "5")]) Htop)
                    (ValidationError "limit" "invalid_type") eq_refl)
      as (field & rule & Heq).
    exists field, rule. rewrite <- Heq. reflexivity.
  - apply (proj2 (schemas_reject_with_validation_errors overview VNull Hov)).
    intros props H. discriminate H.
Defined.

(** ** Responses to accepted inputs *)

Lemma category_or_default_valid (v : value) (c : string) :
  category_or_default v c -> In c validCategories.
Proof.
  intros [[_ ->]|[_ Hin]]; [|exact Hin].
  unfold validCategories. cbn. tauto.
Qed.

Lemma bounded_or_default_range (v : value) (lo hi d n : Z) :
  lo <= d <= hi -> bounded_or_default v lo hi d n -> lo <= n <= hi.
Proof.
  intros Hd [[_ ->]|[_ Hn]]; assumption.
Qed.

(** For every input the [news] schema accepts, the handler asks the headline
    upstream for the requested category itself (the coercion to
    [technology] inside [getNews] never applies), and a successful response
    echoes that category and counts its articles, at most [limit] of them
    and so at most 30. *)
Theorem news_response_within_limit :
  forall (rawInput : value) (validated : NewsInput.t) (w : World) (tr : list event),
    input news "input" rawInput = Ok validated ->
    snd (handler news validated w tr) =
      (tr ++ [EFetch (news_url (NewsInput.category validated))])%list /\
    (forall env,
        fst (handler news validated w tr) = Ok env ->
        exists o,
          output env = NewsOut o /\
          News.category o = NewsInput.category validated /\
          News.count o = len (News.articles o) /\
          News.count o <= NewsInput.limit validated <= 30).
Proof.
  intros rawInput validated w tr Hin.
  apply news_input_inv in Hin. destruct Hin as (props & _ & Hcat & Hlim).
  apply category_or_default_valid in Hcat.
  apply bounded_or_default_range in Hlim; [|lia].
  cbn [handler news]. split.
  - unfold bind at 1. rewrite getNews_run.
    rewrite (fetched_category_valid _ Hcat).
    destruct (rbind _ _); reflexivity.
  - intros env Hok.
    destruct (bind _ _ w tr) as [r tr'] eqn:Hrun. cbn [fst] in Hok. subst r.
    await Hrun as articles tr1 Hnews.
    await Hrun as fetchedAt tr2 Hnow. returned Hrun.
    eexists. split; [reflexivity|]. cbn [News.category News.count News.articles].
    split; [reflexivity|]. split; [reflexivity|].
    split; [|lia]. eapply getNews_length_bound; [|exact Hnews]. lia.
Qed.

Lemma news_response_within_limit_witness :
  exists o,
    News.category o = "science" /\ News.count o = 2 /\
    snd (handler news {| NewsInput.category := "science"; NewsInput.limit := 2 |}
           (Sample.world [] Sample.five_articles) [])
      = [EFetch "https://saurav.tech/NewsAPI/top-headlines/category/science/us.json"].
Proof.
  destruct (news_response_within_limit
              (VObj [("category", VStr "science"); ("limit", VNum 2)])
              {| NewsInput.category := "science"; NewsInput.limit := 2 |}
              (Sample.world [] Sample.five_articles) [] eq_refl) as [Htr Hout].
  destruct (Hout _ eq_refl) as (o & Heq & Hcat & Hcount & _).
  exists o. split; [exact Hcat|]. split; [|exact Htr].
  inversion Heq; subst o. reflexivity.
Defined.

Lemma news_multi_input_inv (rawInput : value) (validated : NewsMultiInput.t) :
  input news_multi "input" rawInput = Ok validated ->
  (1 <= List.length (NewsMultiInput.categories validated) <= 4)%nat /\
  Forall (fun c => In c validCategories) (NewsMultiInput.categories validated) /\
  1 <= NewsMultiInput.limitPerCategory validated <= 10.
Proof.
  destruct validated as [cats limit]. intros Hin.
  cbn [input news_multi] in Hin. unfold Zod.object, Zod.issue in Hin.
  destruct rawInput as [| | | | | |props]; try discriminate Hin.
  destruct (Zod.field "categories" _ (VObj props)) as [cs|e] eqn:Hcats; cbn [rbind] in Hin;
    [|discriminate].
  destruct (Zod.field "limitPerCategory" _ (VObj props)) as [n|e] eqn:Hlim;
    cbn [rbind] in Hin; [|discriminate].
  inversion Hin; subst cs n. clear Hin.
  apply categories_field in Hcats. destruct Hcats as (_ & Hlen & Hvalid).
  apply bounded_number_field in Hlim. apply bounded_or_default_range in Hlim; [|lia].
  cbn [NewsMultiInput.categories NewsMultiInput.limitPerCategory].
  split; [exact Hlen|]. split; [exact Hvalid|exact Hlim].
Qed.

(** For every input the [news-multi] schema accepts, the requests are for the
    given categories themselves, one per entry and at most four of them, and
    a successful response totals at most 40 articles. *)
Theorem news_multi_response_within_limits :
  forall (rawInput : value) (validated : NewsMultiInput.t) (w : World) (tr : list event),
    input news_multi "input" rawInput = Ok validated ->
    snd (handler news_multi validated w tr) =
      (tr ++ map (fun cat => EFetch (news_url cat)) (NewsMultiInput.categories validated))%list /\
    (1 <= List.length (NewsMultiInput.categories validated) <= 4)%nat /\
    (forall env,
        fst (handler news_multi validated w tr) = Ok env ->
        exists o,
          output env = NewsMultiOut o /\
          0 <= NewsMulti.totalArticles o <= 40).
Proof.
  intros rawInput validated w tr Hin.
  apply news_multi_input_inv in Hin. destruct Hin as (Hlen & Hvalid & Hlim).
  split; [|split; [exact Hlen|]].
  - cbn [handler news_multi]. unfold bind at 1.
    pose proof (promise_all_map_trace
                  (fun cat =>
                     articles <- getNews (Some cat)
                                   (Some (NewsMultiInput.limitPerCategory validated)) ;;
                     ret {| NewsMulti.category := cat; NewsMulti.articles := articles |})
                  (fun cat => news_url (fetched_category (Some cat)))) as Htrace.
    assert (Hone : forall cat w0 tr0,
               snd ((articles <- getNews (Some cat)
                                   (Some (NewsMultiInput.limitPerCategory validated)) ;;
                     ret {| NewsMulti.category := cat; NewsMulti.articles := articles |})
                      w0 tr0)
               = (tr0 ++ [EFetch (news_url (fetched_category (Some cat)))])%list).
    { intros cat w0 tr0. unfold bind, ret. rewrite getNews_run.
      destruct (rbind _ _); reflexivity. }
    specialize (Htrace Hone (NewsMultiInput.categories validated) w tr).
    destruct (promise_all _ w tr) as [[results|e] tr1]; cbn [snd] in *; subst tr1;
      (unfold bind, now_iso, ret; cbn [snd]; f_equal; apply map_ext_in; intros cat Hcat;
       rewrite Forall_forall in Hvalid;
       rewrite (fetched_category_valid cat (Hvalid cat Hcat)); reflexivity).
  - intros env Hok.
    destruct (handler news_multi validated w tr) as [r tr'] eqn:Hrun.
    cbn [fst] in Hok. subst r.
    destruct (news_multi_results_shape validated w tr tr' env) as (results & Hout & Hcats & Hb);
      [lia|exact Hrun|].
    eexists. split; [exact Hout|]. cbn [NewsMulti.totalArticles]. split.
    + apply sum_Z_nonneg. apply Forall_map. eapply Forall_impl; [|exact Hb].
      intros r Hr. apply Hr.
    + assert (Hsum : sum_Z (map (fun r => len (NewsMulti.articles r)) results)
                     <= len (map (fun r => len (NewsMulti.articles r)) results)
                        * NewsMultiInput.limitPerCategory validated).
      { apply sum_Z_bound. apply Forall_map. eapply Forall_impl; [|exact Hb].
        intros r Hr. apply Hr. }
      assert (Hn : len (map (fun r => len (NewsMulti.articles r)) results)
                   = len (NewsMultiInput.categories validated)).
      { rewrite <- Hcats. unfold len. rewrite !length_map. reflexivity. }
      rewrite Hn in Hsum.
      assert (Hfour : 0 <= len (NewsMultiInput.categories validated) <= 4)
        by (unfold len; lia).
      nia.
Qed.

Lemma news_multi_response_within_limits_witness :
  snd (handler news_multi
         {| NewsMultiInput.categories := ["science"; "science"];
            NewsMultiInput.limitPerCategory := 5 |}
         (Sample.world [] Sample.five_articles) [])
    = [EFetch "https://saurav.tech/NewsAPI/top-headlines/category/science/us.json";
       EFetch "https://saurav.tech/NewsAPI/top-headlines/category/science/us.json"] /\
  (exists o, 0 <= NewsMulti.totalArticles o <= 40 /\ NewsMulti.totalArticles o = 10).
Proof.
  destruct (news_multi_response_within_limits
              (VObj [("categories", VArr [VStr "science"; VStr "science"])])
              {| NewsMultiInput.categories := ["science"; "science"];
                 NewsMultiInput.limitPerCategory := 5 |}
              (Sample.world [] Sample.five_articles) [] eq_refl) as (Htr & _ & Hout).
  split; [exact Htr|].
  destruct (Hout _ eq_refl) as (o & Heq & Hb).
  exists o. split; [exact Hb|]. inversion Heq; subst o. reflexivity.
Defined.

(** For every input the [all-signals] schema accepts, the headline request is
    for the requested category itself, and in a successful response the
    headline count is at most [newsLimit], hence at most 20, while the
    discussion count is the number of hits the upstream returned, which
    [hnLimit] does not cap on the client side. *)
Theorem all_signals_response_counts :
  forall (rawInput : value) (validated : AllSignalsInput.t) (w : World) (tr : list event),
    input all_signals "input" rawInput = Ok validated ->
    snd (handler all_signals validated w tr) =
      (tr ++ [EFetch (hn_top_url (AllSignalsInput.hnLimit validated));
              EFetch (news_url (AllSignalsInput.newsCategory validated))])%list /\
    (forall env,
        fst (handler all_signals validated w tr) = Ok env ->
        exists o hits,
          output env = AllSignalsOut o /\
          reply_array "hits"
            (reply_to w tr (hn_top_url (AllSignalsInput.hnLimit validated))) = Some hits /\
          AllSignals.Hackernews.count (AllSignals.hackernews o) = len hits /\
          AllSignals.News.count (AllSignals.news o)
            <= AllSignalsInput.newsLimit validated <= 20 /\
          AllSignals.News.category (AllSignals.news o)
            = AllSignalsInput.newsCategory validated).
Proof.
  intros rawInput validated w tr Hin.
  apply all_signals_input_inv in Hin. destruct Hin as (props & _ & Hhn & Hcat & Hlim).
  apply category_or_default_valid in Hcat.
  apply bounded_or_default_range in Hlim; [|lia].
  split.
  - assert (Htr1 : snd (getHNTop (Some (AllSignalsInput.hnLimit validated)) w tr)
                   = (tr ++ [EFetch (hn_top_url (AllSignalsInput.hnLimit validated))])%list)
      by (rewrite getHNTop_run; reflexivity).
    assert (Htr2 : snd (getNews (Some (AllSignalsInput.newsCategory validated))
                                (Some (AllSignalsInput.newsLimit validated)) w
                          (tr ++ [EFetch (hn_top_url (AllSignalsInput.hnLimit validated))])%list)
                   = ((tr ++ [EFetch (hn_top_url (AllSignalsInput.hnLimit validated))])
                        ++ [EFetch (news_url (AllSignalsInput.newsCategory validated))])%list)
      by (rewrite getNews_run, (fetched_category_valid _ Hcat); reflexivity).
    cbn [handler all_signals]. unfold bind, promise_all2, now_iso, ret.
    destruct (getHNTop (Some (AllSignalsInput.hnLimit validated)) w tr) as [ra tr1].
    cbn [snd] in *. subst tr1.
    destruct (getNews (Some (AllSignalsInput.newsCategory validated))
                      (Some (AllSignalsInput.newsLimit validated)) w
                (tr ++ [EFetch (hn_top_url (AllSignalsInput.hnLimit validated))])%list)
      as [rb tr2].
    cbn [snd] in *. subst tr2. rewrite <- app_assoc.
    destruct ra, rb; reflexivity.
  - intros env Hok.
    destruct (handler all_signals validated w tr) as [r tr'] eqn:Hrun.
    cbn [fst] in Hok. subst r.
    destruct (all_signals_success _ _ _ _ _ Hrun) as (hn & nw & tr1 & Hhnrun & Hnews & Hout).
    destruct (getHNTop_success _ _ _ _ _ Hhnrun) as [hits [Hhits HF]].
    cbn [default] in Hhits.
    eexists. exists hits. split; [exact Hout|]. split; [exact Hhits|].
    cbn [AllSignals.hackernews AllSignals.news AllSignals.Hackernews.count
         AllSignals.News.count AllSignals.News.category].
    split; [unfold len; f_equal; symmetry; eapply Forall2_length_eq; exact HF|].
    split; [|reflexivity].
    split; [|lia]. eapply getNews_length_bound; [|exact Hnews]. lia.
Qed.

Lemma all_signals_response_counts_witness :
  exists o,
    AllSignals.Hackernews.count (AllSignals.hackernews o) = 4 /\
    AllSignals.News.count (AllSignals.news o) = 2.
Proof.
  destruct (all_signals_response_counts
              (VObj [("hnLimit", VNum 1); ("newsLimit", VNum 2)])
              {| AllSignalsInput.hnLimit := 1;
                 AllSignalsInput.newsCategory := "technology";
                 AllSignalsInput.newsLimit := 2 |}
              (Sample.world Sample.four_hits Sample.five_articles) [] eq_refl)
    as [_ Hout].
  destruct (Hout _ eq_refl) as (o & hits & Heq & _).
  exists o. inversion Heq; subst o. split; reflexivity.
Defined.

(** ** Discussion handlers *)

(** [hn-top] and [search] issue one request, whose url carries the limit as
    [hitsPerPage], and a successful response holds one record per hit of
    the answer, in order: [count] is the number of hits the upstream
    returned, whatever the limit; [search] echoes the query. *)
Theorem discussion_handlers_count_every_hit :
  forall (top_input : HnTopInput.t) (search_input : SearchInput.t)
         (w : World) (tr : list event),
    (snd (handler hn_top top_input w tr) =
       (tr ++ [EFetch (hn_top_url (HnTopInput.limit top_input))])%list /\
     forall env,
       fst (handler hn_top top_input w tr) = Ok env ->
       exists o hits,
         output env = HnTopOut o /\
         reply_array "hits" (reply_to w tr (hn_top_url (HnTopInput.limit top_input)))
           = Some hits /\
         HnTop.count o = len hits /\
         Forall2 (fun h s => hn_story h = Ok s) hits (HnTop.stories o)) /\
    (snd (handler search search_input w tr) =
       (tr ++ [EFetch (hn_search_url (SearchInput.query search_input)
                                     (SearchInput.limit search_input))])%list /\
     forall env,
       fst (handler search search_input w tr) = Ok env ->
       exists o hits,
         output env = SearchOut o /\
         reply_array "hits"
           (reply_to w tr (hn_search_url (SearchInput.query search_input)
                                         (SearchInput.limit search_input))) = Some hits /\
         Search.query o = SearchInput.query search_input /\
         Search.count o = len hits /\
         Forall2 (fun h r => search_result h = Ok r) hits (Search.results o)).
Proof.
  intros top_input search_input w tr. split; split.
  - cbn [handler hn_top]. unfold bind at 1. rewrite getHNTop_run.
    destruct (rbind _ _); reflexivity.
  - intros env Hok.
    destruct (handler hn_top top_input w tr) as [r tr'] eqn:Hrun. cbn [fst] in Hok. subst r.
    cbn [handler hn_top] in Hrun.
    await Hrun as stories tr1 Hhn.
    await Hrun as fetchedAt tr2 Hnow. returned Hrun.
    destruct (getHNTop_success _ _ _ _ _ Hhn) as [hits [Hhits HF]]. cbn [default] in Hhits.
    eexists. exists hits. split; [reflexivity|]. split; [exact Hhits|].
    cbn [HnTop.count HnTop.stories]. split; [|exact HF].
    unfold len. f_equal. symmetry. eapply Forall2_length_eq. exact HF.
  - cbn [handler search]. unfold bind at 1. rewrite searchHN_run.
    destruct (rbind _ _); reflexivity.
  - intros env Hok.
    destruct (handler search search_input w tr) as [r tr'] eqn:Hrun. cbn [fst] in Hok. subst r.
    cbn [handler search] in Hrun.
    await Hrun as results tr1 Hsearch.
    await Hrun as fetchedAt tr2 Hnow. returned Hrun.
    destruct (searchHN_success _ _ _ _ _ _ Hsearch) as [hits [Hhits HF]].
    cbn [default] in Hhits.
    eexists. exists hits. split; [reflexivity|]. split; [exact Hhits|].
    cbn [Search.query Search.count Search.results]. split; [reflexivity|]. split; [|exact HF].
    unfold len. f_equal. symmetry. eapply Forall2_length_eq. exact HF.
Qed.

Lemma discussion_handlers_count_every_hit_witness :
  exists o,
    HnTop.count o = 4 /\
    snd (handler hn_top {| HnTopInput.limit := 2 |}
           (Sample.world Sample.four_hits []) [])
      = [EFetch "https://hn.algolia.com/api/v1/search?tags=front_page&hitsPerPage=2"].
Proof.
  destruct (discussion_handlers_count_every_hit
              {| HnTopInput.limit := 2 |}
              {| SearchInput.query := "rocq"; SearchInput.limit := 2 |}
              (Sample.world Sample.four_hits []) []) as [[Htr Hout] _].
  destruct (Hout _ eq_refl) as (o & hits & Heq & Hhits & Hcount & _).
  exists o. split; [|exact Htr].
  rewrite Hcount. inversion Hhits; subst hits. reflexivity.
Defined.

(** ** The samples of [overview] *)

Lemma hn_story_title (item : value) (s : HNStory.t) :
  hn_story item = Ok s -> HNStory.title s = JS.get_opt item "title".
Proof.
  unfold hn_story. intros H.
  destruct (JS.get item "title") as [t|e] eqn:Ht; cbn [rbind] in H; [|discriminate].
  apply get_get_opt in Ht. subst t.
  repeat match type of H with
         | rbind ?r _ = Ok _ => destruct r; cbn [rbind] in H; [|discriminate]
         end.
  inversion H. reflexivity.
Qed.

Lemma news_article_title (article : value) (a : NewsArticle.t) :
  news_article article = Ok a -> NewsArticle.title a = JS.get_opt article "title".
Proof.
  unfold news_article. intros H.
  destruct (JS.get article "title") as [t|e] eqn:Ht; cbn [rbind] in H; [|discriminate].
  apply get_get_opt in Ht. subst t.
  repeat match type of H with
         | rbind ?r _ = Ok _ => destruct r; cbn [rbind] in H; [|discriminate]
         end.
  inversion H. reflexivity.
Qed.

Lemma or_else_null_defined (v : value) : JS.or_else v VNull <> VUndefined.
Proof.
  unfold JS.or_else. destruct v; cbn; try discriminate.
  - destruct b; discriminate.
  - destruct (negb (n =? 0)); discriminate.
  - destruct (negb (s =? "")%string); discriminate.
Qed.

(** In a successful [overview] the two samples are the titles of the first
    hit and of the first article of the upstream answers, and [null] when the
    list is empty or that title is missing or empty; a sample is never
    [undefined]. *)
Theorem overview_samples_first_titles :
  forall (w : World) (tr tr' : list event) (env : Envelope),
    handler overview tt w tr = (Ok env, tr') ->
    exists o hits articles,
      output env = OverviewOut o /\
      reply_array "hits" (reply_to w tr (hn_top_url 3)) = Some hits /\
      reply_array "articles"
        (reply_to w (tr ++ [EFetch (hn_top_url 3)])%list (news_url "technology"))
        = Some articles /\
      Overview.hn_top (Overview.sample o) =
        match hits with
        | [] => VNull
        | first :: _ => JS.or_else (JS.get_opt first "title") VNull
        end /\
      Overview.news_top (Overview.sample o) =
        match articles with
        | [] => VNull
        | first :: _ => JS.or_else (JS.get_opt first "title") VNull
        end /\
      Overview.hn_top (Overview.sample o) <> VUndefined /\
      Overview.news_top (Overview.sample o) <> VUndefined.
Proof.
  intros w tr tr' env Hrun.
  destruct (overview_success _ _ _ _ Hrun) as (hnTop & nw & tr1 & Hhn & Hnews & Hout).
  assert (Htr1 : tr1 = (tr ++ [EFetch (hn_top_url 3)])%list).
  { rewrite getHNTop_run in Hhn. inversion Hhn. reflexivity. }
  subst tr1.
  destruct (getHNTop_success _ _ _ _ _ Hhn) as [hits [Hhits HFhn]].
  destruct (getNews_success _ _ _ _ _ _ Hnews) as [articles [Harts HFnews]].
  cbn [default] in Hhits, HFnews.
  change (fetched_category (Some "technology")) with "technology" in Harts.
  rewrite slice0_nonneg in HFnews by lia.
  eexists. exists hits, articles.
  split; [exact Hout|]. split; [exact Hhits|]. split; [exact Harts|].
  cbn [Overview.sample Overview.hn_top Overview.news_top].
  split; [|split; [|split; apply or_else_null_defined]].
  - destruct HFhn as [|h s hits' stories Hs _]; [reflexivity|].
    cbn [first_title]. rewrite (hn_story_title h s Hs). reflexivity.
  - destruct articles as [|a rest]; cbn [firstn Z.to_nat Pos.to_nat] in HFnews.
    + inversion HFnews. reflexivity.
    + change (Z.to_nat 3) with 3%nat in HFnews. cbn [firstn] in HFnews.
      inversion HFnews as [|? r ? ? Hr _]; subst.
      cbn [first_title]. rewrite (news_article_title a r Hr). reflexivity.
Qed.

Lemma overview_samples_first_titles_witness :
  exists o,
    Overview.hn_top (Overview.sample o) = VStr "Show HN: one" /\
    Overview.news_top (Overview.sample o) = VNull.
Proof.
  destruct (overview_samples_first_titles (Sample.world Sample.four_hits []) []
                                          _ _ eq_refl)
    as (o & hits & articles & _ & Hhits & Harts & Hhn & Hnews & _).
  exists o. inversion Hhits; subst hits. inversion Harts; subst articles.
  split; [exact Hhn|exact Hnews].
Defined.

(** ** Limits of the headline adapter outside the validated range *)




(** ** The url of a search request *)

Lemma hex_digit_unreserved (n : nat) : JS.uri_unreserved (JS.hex_digit n) = true.
Proof.
  do 15 (destruct n as [|n]; [reflexivity|]). reflexivity.
Qed.

Lemma hex_value_digit (n : nat) : (n < 16)%nat -> hex_value (JS.hex_digit n) = Some n.
Proof.
  intros Hn. do 16 (destruct n as [|n]; [reflexivity|]). lia.
Qed.

Lemma percent_decode_escape (h l : ascii) (rest : string) :
  percent_decode (String "%" (String h (String l rest))) =
  match hex_value h, hex_value l, percent_decode rest with
  | Some a, Some b, Some r => Some (String (ascii_of_nat (16 * a + b)) r)
  | _, _, _ => None
  end.
Proof.
  reflexivity.
Qed.

Lemma percent_decode_plain (c : ascii) (rest : string) :
  Ascii.eqb c "%" = false ->
  percent_decode (String c rest) =
  match percent_decode rest with
  | Some r => Some (String c r)
  | None => None
  end.
Proof.
  intros H. cbn [percent_decode]. rewrite H. reflexivity.
Qed.

(** Decoding what [encodeURIComponent] wrote gives the text back. *)
Lemma percent_decode_encode (s : string) :
  percent_decode (JS.encodeURIComponent s) = Some s.
Proof.
  induction s as [|a rest IH]; [reflexivity|].
  cbn [JS.encodeURIComponent]. destruct (JS.uri_unreserved a) eqn:Ha.
  - rewrite percent_decode_plain, IH; [reflexivity|].
    destruct (Ascii.eqb a "%") eqn:E; [|reflexivity].
    apply Ascii.eqb_eq in E. subst a. discriminate Ha.
  - rewrite percent_decode_escape, IH.
    pose proof (nat_ascii_bounded a) as Hb.
    rewrite !hex_value_digit.
    + rewrite <- Nat.div_mod_eq, ascii_nat_embedding. reflexivity.
    + apply Nat.mod_upper_bound. discriminate.
    + apply Nat.Div0.div_lt_upper_bound. exact Hb.
Qed.

Lemma encoded_alphabet (s : string) (c : ascii) :
  In c (chars (JS.encodeURIComponent s)) -> JS.uri_unreserved c = true \/ c = "%"%char.
Proof.
  induction s as [|a rest IH]; intros Hin; cbn [JS.encodeURIComponent chars] in Hin.
  - destruct Hin.
  - destruct (JS.uri_unreserved a) eqn:Ha; cbn [chars] in Hin.
    + destruct Hin as [<-|Hin]; [left; exact Ha|apply IH; exact Hin].
    + destruct Hin as [<-|[<-|[<-|Hin]]].
      * right. reflexivity.
      * left. apply hex_digit_unreserved.
      * left. apply hex_digit_unreserved.
      * apply IH. exact Hin.
Qed.

(** [searchHN] puts the query into the url of its one request in
    percent-encoded form, between the fixed [query=] and [&hitsPerPage=]
    parts: the encoded text decodes back to the query, so that the whole
    query and nothing else is sent, and it is made of unreserved characters
    and percent escapes only, so that no ampersand, equals sign, hash,
    question mark, slash or space of the query can add to or cut the url; a
    query of unreserved characters is sent as it is. *)
Theorem search_query_is_percent_encoded :
  forall (query : string) (limit : option Z) (w : World) (tr : list event),
    safe_integer (default 10 limit) ->
    snd (searchHN query limit w tr) =
      (tr ++ [EFetch ("https://hn.algolia.com/api/v1/search?query="
                        ++ JS.encodeURIComponent query
                        ++ "&hitsPerPage=" ++ JS.string_of_Z (default 10 limit))])%list /\
    percent_decode (JS.encodeURIComponent query) = Some query /\
    (forall c, In c (chars (JS.encodeURIComponent query)) ->
               JS.uri_unreserved c = true \/ c = "%"%char) /\
    (forall c, In c ["&"; "="; "#"; "?"; "/"; " "]%char ->
               ~ In c (chars (JS.encodeURIComponent query))) /\
    (Forall (fun c => JS.uri_unreserved c = true) (chars query) ->
     JS.encodeURIComponent query = query).
Proof.
  intros query limit w tr _.
  split; [rewrite searchHN_run; reflexivity|].
  split; [apply percent_decode_encode|].
  split; [intros c; apply encoded_alphabet|]. split.
  - intros c Hc Hin. destruct (encoded_alphabet query c Hin) as [Hu|Hp];
      cbn [In] in Hc;
      repeat match goal with
             | H : _ \/ _ |- _ => destruct H as [H|H]
             end; subst; try discriminate; try contradiction.
  - induction query as [|a rest IH]; intros Hall; [reflexivity|].
    cbn [chars] in Hall. inversion Hall as [|? ? Ha Hrest]; subst.
    cbn [JS.encodeURIComponent]. rewrite Ha, (IH Hrest). reflexivity.
Qed.

Lemma search_query_is_percent_encoded_witness :
  snd (searchHN "ai&hitsPerPage=1000" (Some 5) (Sample.world [] []) []) =
    [EFetch "https://hn.algolia.com/api/v1/search?query=ai%26hitsPerPage%3D1000&hitsPerPage=5"] /\
  percent_decode "ai%26hitsPerPage%3D1000" = Some "ai&hitsPerPage=1000".
Proof.
  destruct (search_query_is_percent_encoded
              "ai&hitsPerPage=1000" (Some 5) (Sample.world [] []) [])
    as (Htr & Hdec & _).
  - reflexivity.
  - split; [exact Htr|exact Hdec].
Defined.

(** ** The trend adapter, and hits without url *)

Lemma getXTrends_falls_back_witness :
  getXTrends Sample.down_world [] = (Ok trends_fallback, [EFetch trends_url]) /\
  getXTrends (Sample.world [] []) [] = (Ok trends_fallback, [EFetch trends_url]).
Proof.
  split.
  - apply (getXTrends_falls_back Sample.down_world []).
    right. exists {| status := 503; body := None |}. split; reflexivity.
  - apply (getXTrends_falls_back (Sample.world [] []) []).
    left. reflexivity.
Defined.

Lemma getXTrends_passes_body_witness :
  getXTrends Sample.message_world [] =
    (Ok (VObj [("message", VStr "rate limit exceeded")]), [EFetch trends_url]).
Proof.
  apply (getXTrends_passes_body Sample.message_world []
           {| status := 200; body := Some (VObj [("message", VStr "rate limit exceeded")]) |});
    reflexivity.
Defined.

(** A hit that has neither a usable url nor an [objectID] still gets a url:
    the permalink of the literal [undefined], in both discussion adapters.
    The url of a record is thus never empty, but it need not lead anywhere. *)
Theorem hit_without_url_and_id_gets_undefined_permalink :
  forall (item : value),
    JS.is_nullish item = false ->
    JS.truthy (JS.get_opt item "url") = false ->
    JS.get_opt item "objectID" = VUndefined ->
    exists s r,
      hn_story item = Ok s /\
      search_result item = Ok r /\
      HNStory.url s = VStr "https://news.ycombinator.com/item?id=undefined" /\
      SearchResult.url r = VStr "https://news.ycombinator.com/item?id=undefined".
Proof.
  intros item Hobj Hurl Hid.
  assert (Ht : translatable item = true).
  { apply primitive_id_translatable; [exact Hobj|]. rewrite Hid. reflexivity. }
  destruct (hn_story_total item Ht) as [s Hs].
  destruct (search_result_total item Ht) as [r Hr].
  exists s, r. split; [exact Hs|]. split; [exact Hr|].
  assert (Hu : hn_url item = Ok (VStr "https://news.ycombinator.com/item?id=undefined")).
  { unfold hn_url.
    destruct (get_not_nullish item "url" Hobj) as [u Hgu].
    destruct (get_not_nullish item "objectID" Hobj) as [id Hgid].
    rewrite Hgu, Hgid. cbn [rbind].
    apply get_get_opt in Hgu, Hgid. subst u id. rewrite Hurl, Hid. reflexivity. }
  apply hn_story_url in Hs. apply search_result_url in Hr.
  rewrite Hu in Hs, Hr. inversion Hs. inversion Hr. split; reflexivity.
Qed.

Lemma hit_without_url_and_id_gets_undefined_permalink_witness :
  exists s,
    hn_story (VObj [("title", VStr "untracked"); ("url", VStr "")]) = Ok s /\
    HNStory.url s = VStr "https://news.ycombinator.com/item?id=undefined".
Proof.
  destruct (hit_without_url_and_id_gets_undefined_permalink
              (VObj [("title", VStr "untracked"); ("url", VStr "")])
              eq_refl eq_refl eq_refl) as (s & r & Hs & _ & Hurl & _).
  exists s. split; [exact Hs|exact Hurl].
Defined.

(** ** Sample inputs of the schemas *)

Lemma hn_top_accepted_inputs_witness :
  input hn_top "input" (VObj []) = Ok {| HnTopInput.limit := 20 |} /\
  input hn_top "input" (VObj [("limit", VNum 50)]) = Ok {| HnTopInput.limit := 50 |}.
Proof.
  split.
  - apply (proj2 (hn_top_accepted_inputs (VObj []) {| HnTopInput.limit := 20 |})).
    exists []. split; [reflexivity|]. left. split; reflexivity.
  - apply (proj2 (hn_top_accepted_inputs (VObj [("limit", VNum 50)])
                                         {| HnTopInput.limit := 50 |})).
    exists [("limit", VNum 50)]. split; [reflexivity|]. right.
    split; [reflexivity|cbn; lia].
Defined.

(** A query of four characters, the last of which takes two bytes. *)
Lemma search_accepted_inputs_witness :
  input search "input"
    (VObj [("query", VStr ("caf" ++ String (ascii_of_nat 195) (String (ascii_of_nat 169) "")))])
    = Ok {| SearchInput.query :=
              "caf" ++ String (ascii_of_nat 195) (String (ascii_of_nat 169) "");
            SearchInput.limit := 15 |} /\
  JS.string_length ("caf" ++ String (ascii_of_nat 195) (String (ascii_of_nat 169) "")) = 4%nat.
Proof.
  split; [|reflexivity].
  apply (proj2 (search_accepted_inputs
                  (VObj [("query",
                          VStr ("caf" ++ String (ascii_of_nat 195)
                                           (String (ascii_of_nat 169) "")))])
                  {| SearchInput.query :=
                       "caf" ++ String (ascii_of_nat 195) (String (ascii_of_nat 169) "");
                     SearchInput.limit := 15 |})).
  eexists. split; [reflexivity|]. split; [reflexivity|].
  split; [vm_compute; lia|]. left. split; reflexivity.
Defined.

Lemma news_accepted_inputs_witness :
  input news "input" (VObj [("category", VStr "health")])
    = Ok {| NewsInput.category := "health"; NewsInput.limit := 15 |}.
Proof.
  apply (proj2 (news_accepted_inputs
                  (VObj [("category", VStr "health")])
                  {| NewsInput.category := "health"; NewsInput.limit := 15 |})).
  exists [("category", VStr "health")]. split; [reflexivity|]. split.
  - right. split; [reflexivity|]. cbn. tauto.
  - left. split; reflexivity.
Defined.

Lemma all_signals_accepted_inputs_witness :
  input all_signals "input" (VObj [])
    = Ok {| AllSignalsInput.hnLimit := 15;
            AllSignalsInput.newsCategory := "technology";
            AllSignalsInput.newsLimit := 10 |}.
Proof.
  apply (proj2 (all_signals_accepted_inputs
                  (VObj [])
                  {| AllSignalsInput.hnLimit := 15;
                     AllSignalsInput.newsCategory := "technology";
                     AllSignalsInput.newsLimit := 10 |})).
  exists []. split; [reflexivity|].
  split; [left; split; reflexivity|]. split; left; split; reflexivity.
Defined.
